(** * The droplet lifecycle controller of discord-mcserver

    A shallow embedding of [MinecraftServerService]
    (src/src/discord-bot.service.ts, second module of the file) and the
    properties of its lifecycle state machine.

    The service is asynchronous JavaScript.  Every [async] method is cut at
    its [await] points: the code up to the first [await] is a state
    transformer, and the code after each [await] is a continuation frame
    ([Frame]) that is resumed when the awaited promise settles.  The
    collaborators (cloud client, SSH transport, timers) are not modelled:
    calls to them are recorded in a trace, and their answers are inputs of
    the machine.

    The message handler of [DiscordBotService], the first module of the
    file, is embedded as a function from a message to the log lines and
    replies it produces. *)

From Stdlib Require Import String Ascii ZArith List Bool Arith Lia DecimalString.
Import ListNotations.
Open Scope string_scope.

(** ** Data *)

(** [type ServerStatus = "up" | "down" | "starting" | "stopping" | "weird"] *)
Inductive ServerStatus : Type := up | down | starting | stopping | weird.

Definition ServerStatus_eqb (a b : ServerStatus) : bool :=
  match a, b with
  | up, up | down, down | starting, starting
  | stopping, stopping | weird, weird => true
  | _, _ => false
  end.

Definition status_text (s : ServerStatus) : string :=
  match s with
  | up => "up" | down => "down" | starting => "starting"
  | stopping => "stopping" | weird => "weird"
  end.

(** A thrown value; only its message matters here. *)
Definition Error : Type := string.

(** The object literal handed to [ssh.connect]. *)
Record SSHConfig : Type := mkSSHConfig {
  host : option string;
  username : string;
  privateKey : option string
}.

(** node-ssh's [SSHExecCommandResponse]. *)
Record SSHExecCommandResponse : Type := mkResponse {
  stdout : string;
  stderr : string;
  code : option Z
}.

(** What [waitForDroplet] reads of the answer of [doService.getDroplet]:
    [res.status] and [res.networks.v4.ip_address]. *)
Record Droplet : Type := mkDroplet {
  droplet_status : string;
  ip_address : option string
}.

(** The optional [() => void] handed to [createServer].  It is foreign code:
    it is identified by a number and may throw. *)
Record Callback : Type := mkCallback {
  cb_id : nat;
  cb_throws : option Error
}.

(** A [NodeSSH] object: made by the service with [new NodeSSH()], or handed
    to [runSSHCommand] by its caller. *)
Inductive NodeSSH : Type :=
| Created (n : nat)
| Supplied (n : nat).

(** The fields of [MinecraftServerService]. *)
Record MinecraftServerService : Type := mkService {
  privateKeyPath : option string;
  sshConfig : SSHConfig;
  creationCallback : option Callback;
  status : ServerStatus;
  dropletId : option Z;
  ipv4 : option string
}.

(** The commands to run on a fresh droplet. *)
Definition initializationScript : list string :=
  [ "mkdir -p /mnt/discord_mcserver";
    "mount /dev/sda /mnt/discord_mcserver";
    "apt install openjdk-11-jre-headless -y";
    "ufw allow 25565/tcp";
    "ufw allow 25565/udp";
    "useradd --home-dir /mnt/discord_mcserver/minecraft --uid=10001 minecraft";
    "cp /mnt/discord_mcserver/minecraft.service /etc/systemd/system/minecraft.service";
    "systemctl daemon-reload";
    "systemctl enable --now minecraft.service" ].

(** ** JavaScript bits *)

(** Template-literal rendering of [this.dropletId]. *)
Definition show_number (n : option Z) : string :=
  match n with
  | Some z => NilZero.string_of_int (Z.to_int z)
  | None => "undefined"
  end.

(** [!s] is false exactly for a non-empty string. *)
Definition truthy (s : option string) : bool :=
  match s with
  | Some EmptyString => false
  | Some _ => true
  | None => false
  end.

(** [for (const k in a)] over an array enumerates its indices, as strings,
    in ascending order. *)
Definition for_in_keys {A : Type} (a : list A) : list string :=
  map (fun i => NilZero.string_of_uint (Nat.to_uint i)) (seq 0 (length a)).

(** The receiver of a method call.  [setTimeout(this.waitForDroplet, 5000)]
    passes the method without binding it, and the timer calls it with the
    Timeout object as [this]; [this.waitForDroplet()] calls it on the
    service. *)
Inductive Receiver : Type := ThisService | ThisTimeout.

(** ** Promises, continuations and the trace *)

Inductive Value : Type :=
| VUndefined
| VNumber (n : Z)
| VDroplet (d : Droplet)
| VExec (r : SSHExecCommandResponse).

Inductive Settled : Type :=
| Fulfilled (v : Value)
| Rejected (e : Error).

(** The rest of a method after one of its [await]s, with the locals it
    still needs. *)
Inductive Frame : Type :=
| KCreateServer
    (* createServer after [await this.doService.createDroplet()] *)
| KWaitForDroplet
    (* waitForDroplet after [await this.doService.getDroplet(..)] *)
| KInitDroplet (ssh : NodeSSH)
    (* initDroplet after [await ssh.connect(this.sshConfig)] *)
| KRunSSHCommand (command : string) (ssh : NodeSSH) (logOutput disposeSSH : bool)
    (* runSSHCommand after [await ssh.execCommand(command)] *)
| KStopServer1
    (* stopServer after [await this.runSSHCommand(..)] *)
| KStopServer2
    (* stopServer after [await this.doService.deleteDroplet(..)] *)
| KTimeout (ms : Z)
    (* the timer armed by [setTimeout(this.waitForDroplet, ms)] *)
| KConnect.
    (* the promise of the [ssh.connect] that runSSHCommand does not await *)

Inductive Level : Type := LLog | LWarn | LError.

Inductive Event : Type :=
| ELogger (l : Level) (msg : string)
| EConsole (msg : string)
| ECreateDroplet
| EGetDroplet (id : option Z)
| EDeleteDroplet (id : option Z)
| ENewSSH (ssh : NodeSSH)
| EConnect (ssh : NodeSSH) (cfg : SSHConfig)
| EExecCommand (ssh : NodeSSH) (command : string)
| EDispose (ssh : NodeSSH)
| ESetTimeout (ms : Z)
| ECallback (cb : Callback)
| EFulfilled (p : nat) (v : Value)
| ERejected (p : nat) (e : Error)
| EUnhandledRejection (e : Error).

(** A suspended call chain: the frames to resume, innermost first, and
    whether somebody outside holds its promise. *)
Record Task : Type := mkTask {
  task_id : nat;
  frames : list Frame;
  awaited : bool
}.

Record Machine : Type := mkMachine {
  svc : MinecraftServerService;
  tasks : list Task;
  next_promise : nat;
  next_ssh : nat;
  trace : list Event
}.

(** What a piece of synchronous code ends with. *)
Inductive Step : Type :=
| Return (v : Value)
| Throw (e : Error)
| Await (ks : list Frame).

(** ** A state monad over the machine *)

Definition M (A : Type) : Type := Machine -> A * Machine.

Definition ret {A : Type} (a : A) : M A := fun m => (a, m).

Definition bind {A B : Type} (c : M A) (f : A -> M B) : M B :=
  fun m => let (a, m') := c m in f a m'.

Declare Scope js_scope.
Delimit Scope js_scope with js.
Notation "x <- c ;; k" := (bind c (fun x => k))
  (at level 61, c at next level, right associativity) : js_scope.
Notation "c ;; k" := (bind c (fun _ => k))
  (at level 61, right associativity) : js_scope.
Open Scope js_scope.

Definition this : M MinecraftServerService := fun m => (svc m, m).

Definition update (f : MinecraftServerService -> MinecraftServerService) : M unit :=
  fun m => (tt, mkMachine (f (svc m)) (tasks m) (next_promise m) (next_ssh m) (trace m)).

Definition set_status (s : ServerStatus) : M unit :=
  update (fun o => mkService (privateKeyPath o) (sshConfig o) (creationCallback o)
                             s (dropletId o) (ipv4 o)).

Definition set_dropletId (id : option Z) : M unit :=
  update (fun o => mkService (privateKeyPath o) (sshConfig o) (creationCallback o)
                             (status o) id (ipv4 o)).

Definition set_ipv4 (a : option string) : M unit :=
  update (fun o => mkService (privateKeyPath o) (sshConfig o) (creationCallback o)
                             (status o) (dropletId o) a).

Definition set_creationCallback (cb : option Callback) : M unit :=
  update (fun o => mkService (privateKeyPath o) (sshConfig o) cb
                             (status o) (dropletId o) (ipv4 o)).

Definition emit (e : Event) : M unit :=
  fun m => (tt, mkMachine (svc m) (tasks m) (next_promise m) (next_ssh m) (trace m ++ [e])).

Definition logger (l : Level) (msg : string) : M unit := emit (ELogger l msg).

Definition console_log (msg : string) : M unit := emit (EConsole msg).

Definition fresh_promise : M nat :=
  fun m => (next_promise m,
            mkMachine (svc m) (tasks m) (S (next_promise m)) (next_ssh m) (trace m)).

(** [new NodeSSH()] *)
Definition new_NodeSSH : M NodeSSH :=
  fun m => (Created (next_ssh m),
            mkMachine (svc m) (tasks m) (next_promise m) (S (next_ssh m))
                      (trace m ++ [ENewSSH (Created (next_ssh m))])).

Definition suspend (t : Task) : M unit :=
  fun m => (tt, mkMachine (svc m) (tasks m ++ [t]) (next_promise m) (next_ssh m) (trace m)).

Definition when (b : bool) (c : M unit) : M unit := if b then c else ret tt.

Fixpoint for_each {A : Type} (l : list A) (body : A -> M unit) : M unit :=
  match l with
  | [] => ret tt
  | x :: l' => body x ;; for_each l' body
  end.

(** A call to an async function whose promise nobody keeps: the code up to
    its first [await] runs now; the rest is a task of its own, and a
    rejection is an unhandled one. *)
Definition detached (body : M Step) : M unit :=
  p <- fresh_promise ;;
  r <- body ;;
  match r with
  | Return _ => ret tt
  | Throw e => emit (EUnhandledRejection e)
  | Await ks => suspend (mkTask p ks false)
  end.

(** A promise made by a collaborator and dropped by the code. *)
Definition dropped_promise (k : Frame) : M unit :=
  p <- fresh_promise ;;
  suspend (mkTask p [k] false).

(** ** The methods of the service *)

(** [constructor(configService, doService)]: [this.ipv4] has no value yet
    when the [sshConfig] literal reads it. *)
Definition constructor (SSH_PRIVATEKEY : option string) : MinecraftServerService :=
  let ipv4_now : option string := None in
  mkService SSH_PRIVATEKEY
            (mkSSHConfig ipv4_now "root" SSH_PRIVATEKEY)
            None down None None.

(** [getStatus()] *)
Record StatusReport : Type := mkReport {
  report_status : ServerStatus;
  report_ipv4 : option string;
  report_dropletId : option Z
}.

Definition getStatus (o : MinecraftServerService) : StatusReport :=
  mkReport (status o) (ipv4 o) (dropletId o).

(** [forceStatus(newStatus)] *)
Definition forceStatus (newStatus : ServerStatus) : M unit :=
  logger LWarn ("Forcing status to be " ++ status_text newStatus) ;;
  set_status newStatus.

(** [runSSHCommand(command, ssh, logOutput)] up to
    [await ssh.execCommand(command)].  The method always reaches that
    [await], so its first part yields the frame it is suspended in. *)
Definition runSSHCommand_start (command : string) (ssh : option NodeSSH)
    (logOutput : bool) : M Frame :=
  match ssh with
  | None =>
      s <- new_NodeSSH ;;
      o <- this ;;
      emit (EConnect s (sshConfig o)) ;;
      dropped_promise KConnect ;;
      emit (EExecCommand s command) ;;
      ret (KRunSSHCommand command s logOutput true)
  | Some s =>
      emit (EExecCommand s command) ;;
      ret (KRunSSHCommand command s logOutput false)
  end.

Definition runSSHCommand (command : string) (ssh : option NodeSSH)
    (logOutput : bool) : M Step :=
  k <- runSSHCommand_start command ssh logOutput ;;
  ret (Await [k]).

(** ... and from the result of [execCommand] on.  No [try] surrounds the
    [await]: a rejection leaves the method at once. *)
Definition runSSHCommand_resume (command : string) (ssh : NodeSSH)
    (logOutput disposeSSH : bool) (r : Settled) : M Step :=
  match r with
  | Fulfilled (VExec result) =>
      when logOutput
        (console_log ("Command: " ++ command ++ ", Output:") ;;
         console_log (stdout result) ;;
         console_log (stderr result)) ;;
      when disposeSSH (emit (EDispose ssh)) ;;
      ret (Return (VExec result))
  | Fulfilled v => ret (Return v)
  | Rejected e => ret (Throw e)
  end.

(** The [catch] block of [initDroplet]. *)
Definition initDroplet_catch (err : Error) : M Step :=
  logger LError "Could not run initialization script!" ;;
  logger LError err ;;
  set_status weird ;;
  ret (Return VUndefined).

(** [initDroplet()] up to [await ssh.connect(this.sshConfig)]. *)
Definition initDroplet : M Step :=
  logger LLog "Initializing droplet with SSH..." ;;
  ssh <- new_NodeSSH ;;
  o <- this ;;
  emit (EConnect ssh (sshConfig o)) ;;
  ret (Await [KInitDroplet ssh]).

(** ... and after it.  The loop is [for (const cmd in initializationScript)],
    and the calls of [runSSHCommand] in it are not awaited. *)
Definition initDroplet_resume (ssh : NodeSSH) (r : Settled) : M Step :=
  match r with
  | Rejected err => initDroplet_catch err
  | Fulfilled _ =>
      for_each (for_in_keys initializationScript)
        (fun cmd => detached (runSSHCommand cmd (Some ssh) true)) ;;
      logger LLog "Droplet initialized!" ;;
      set_status up ;;
      o <- this ;;
      match creationCallback o with
      | None => ret (Return VUndefined)
      | Some cb =>
          emit (ECallback cb) ;;
          match cb_throws cb with
          | Some err => initDroplet_catch err
          | None => ret (Return VUndefined)
          end
      end
  end.

(** [setTimeout(this.waitForDroplet, ms)] *)
Definition setTimeout_waitForDroplet (ms : Z) : M unit :=
  emit (ESetTimeout ms) ;;
  dropped_promise (KTimeout ms).

(** [waitForDroplet()] up to [await this.doService.getDroplet(this.dropletId)].
    On the Timeout object [this.doService] is undefined, and reading
    [getDroplet] of it throws. *)
Definition waitForDroplet (receiver : Receiver) : M Step :=
  match receiver with
  | ThisTimeout =>
      ret (Throw "TypeError: Cannot read property 'getDroplet' of undefined")
  | ThisService =>
      o <- this ;;
      emit (EGetDroplet (dropletId o)) ;;
      ret (Await [KWaitForDroplet])
  end.

(** ... and after it. *)
Definition waitForDroplet_resume (r : Settled) : M Step :=
  match r with
  | Rejected e => ret (Throw e)
  | Fulfilled (VDroplet res) =>
      o <- this ;;
      if negb (droplet_status res =? "active") then
        logger LLog ("Droplet " ++ show_number (dropletId o) ++ " not active. Waiting...") ;;
        setTimeout_waitForDroplet 5000 ;;
        ret (Return VUndefined)
      else if negb (truthy (ip_address res)) then
        logger LLog ("Droplet " ++ show_number (dropletId o)
                       ++ " is active but without network. Waiting...") ;;
        setTimeout_waitForDroplet 5000 ;;
        ret (Return VUndefined)
      else
        set_ipv4 (ip_address res) ;;
        detached initDroplet ;;
        ret (Return VUndefined)
  | Fulfilled _ => ret (Return VUndefined)
  end.

(** [createServer(callback)] up to [await this.doService.createDroplet()]. *)
Definition createServer (callback : option Callback) : M Step :=
  o <- this ;;
  if negb (ServerStatus_eqb (status o) down) then
    logger LWarn "Refusing to create server when status is not 'down'." ;;
    ret (Return VUndefined)
  else
    set_creationCallback callback ;;
    set_status starting ;;
    emit ECreateDroplet ;;
    ret (Await [KCreateServer]).

(** ... and after it: the rest of the [try] block, or the [catch] block. *)
Definition createServer_resume (r : Settled) : M Step :=
  match r with
  | Fulfilled (VNumber id) =>
      set_dropletId (Some id) ;;
      logger LLog ("Created droplet with ID " ++ show_number (Some id)
                     ++ ". Waiting for network...") ;;
      detached (waitForDroplet ThisService) ;;
      ret (Return VUndefined)
  | Fulfilled _ => ret (Return VUndefined)
  | Rejected err =>
      logger LError "Error while creating droplet!" ;;
      logger LError err ;;
      set_status down ;;
      ret (Return VUndefined)
  end.

(** [stopServer()] up to [await this.runSSHCommand(..)]. *)
Definition stopServer : M Step :=
  o <- this ;;
  if negb (ServerStatus_eqb (status o) up) && negb (ServerStatus_eqb (status o) weird) then
    logger LWarn "Refusing to stop server when status is not 'up'/'weird'." ;;
    ret (Return VUndefined)
  else
    logger LLog "Stopping droplet!" ;;
    set_status stopping ;;
    logger LLog "Running 'systemctl stop minecraft'..." ;;
    k <- runSSHCommand_start "systemctl stop minecraft" None true ;;
    ret (Await [k; KStopServer1]).

(** ... between its two [await]s ... *)
Definition stopServer_resume1 (r : Settled) : M Step :=
  match r with
  | Rejected e => ret (Throw e)
  | Fulfilled _ =>
      o <- this ;;
      logger LLog ("Deleting droplet with ID = " ++ show_number (dropletId o)) ;;
      emit (EDeleteDroplet (dropletId o)) ;;
      ret (Await [KStopServer2])
  end.

(** ... and after [await this.doService.deleteDroplet(this.dropletId)]. *)
Definition stopServer_resume2 (r : Settled) : M Step :=
  match r with
  | Rejected e => ret (Throw e)
  | Fulfilled _ =>
      logger LLog "Server stopped!" ;;
      set_status down ;;
      ret (Return VUndefined)
  end.

(** ** The event loop *)

Definition resume (k : Frame) (r : Settled) : M Step :=
  match k with
  | KCreateServer => createServer_resume r
  | KWaitForDroplet => waitForDroplet_resume r
  | KInitDroplet ssh => initDroplet_resume ssh r
  | KRunSSHCommand command ssh logOutput disposeSSH =>
      runSSHCommand_resume command ssh logOutput disposeSSH r
  | KStopServer1 => stopServer_resume1 r
  | KStopServer2 => stopServer_resume2 r
  | KTimeout _ =>
      match r with
      | Fulfilled _ => detached (waitForDroplet ThisTimeout) ;; ret (Return VUndefined)
      | Rejected e => ret (Throw e)
      end
  | KConnect =>
      match r with
      | Fulfilled _ => ret (Return VUndefined)
      | Rejected e => ret (Throw e)
      end
  end.

(** A settled promise resumes the innermost frame; what that frame returns
    or throws settles the call it belongs to and resumes the next frame,
    until a frame awaits again or the chain is used up. *)
Fixpoint continue (ks : list Frame) (r : Settled) : M (Settled + list Frame) :=
  match ks with
  | [] => ret (inl r)
  | k :: rest =>
      s <- resume k r ;;
      match s with
      | Return v => continue rest (Fulfilled v)
      | Throw e => continue rest (Rejected e)
      | Await ks' => ret (inr (ks' ++ rest)%list)
      end
  end.

(** The value a suspended frame can be resumed with. *)
Definition accepts (k : Frame) (r : Settled) : bool :=
  match r, k with
  | Rejected _, KTimeout _ => false
  | Rejected _, KStopServer1 => false
  | Rejected _, _ => true
  | Fulfilled (VNumber _), KCreateServer => true
  | Fulfilled (VDroplet _), KWaitForDroplet => true
  | Fulfilled (VExec _), KRunSSHCommand _ _ _ _ => true
  | Fulfilled VUndefined, (KInitDroplet _ | KStopServer2 | KTimeout _ | KConnect) => true
  | Fulfilled _, _ => false
  end.

Definition settle_promise (p : nat) (awaited_by_caller : bool) (r : Settled) : M unit :=
  match r, awaited_by_caller with
  | Fulfilled v, true => emit (EFulfilled p v)
  | Rejected e, true => emit (ERejected p e)
  | Fulfilled _, false => ret tt
  | Rejected e, false => emit (EUnhandledRejection e)
  end.

(** A call of a public async method by the router. *)
Definition call (body : M Step) : M unit :=
  p <- fresh_promise ;;
  s <- body ;;
  match s with
  | Return v => settle_promise p true (Fulfilled v)
  | Throw e => settle_promise p true (Rejected e)
  | Await ks => suspend (mkTask p ks true)
  end.

Fixpoint take_task (p : nat) (ts : list Task) : option (Task * list Task) :=
  match ts with
  | [] => None
  | t :: ts' =>
      if Nat.eqb (task_id t) p then Some (t, ts')
      else match take_task p ts' with
           | Some (t', rest) => Some (t', t :: rest)
           | None => None
           end
  end.

Definition set_tasks (ts : list Task) : M unit :=
  fun m => (tt, mkMachine (svc m) ts (next_promise m) (next_ssh m) (trace m)).

Definition can_resume (t : Task) (r : Settled) : bool :=
  match frames t with
  | k :: _ => accepts k r
  | [] => false
  end.

(** Task [t] leaves the pending set and runs on with [r]. *)
Definition resume_task (t : Task) (rest : list Task) (r : Settled) : M unit :=
  set_tasks rest ;;
  o <- continue (frames t) r ;;
  match o with
  | inl final => settle_promise (task_id t) (awaited t) final
  | inr ks => suspend (mkTask (task_id t) ks (awaited t))
  end.

(** The promise on which task [p] waits settles with [r]. *)
Definition deliver (p : nat) (r : Settled) : M unit :=
  fun m =>
    match take_task p (tasks m) with
    | Some (t, rest) => if can_resume t r then resume_task t rest r m else (tt, m)
    | None => (tt, m)
    end.

(** What happens to the service: the router calls a public method, or a
    pending promise settles. *)
Inductive Input : Type :=
| CallCreateServer (callback : option Callback)
| CallStopServer
| CallForceStatus (newStatus : ServerStatus)
| CallRunSSHCommand (command : string) (ssh : option NodeSSH) (logOutput : bool)
| Settle (p : nat) (r : Settled).

Definition step (i : Input) (m : Machine) : Machine :=
  snd (match i with
       | CallCreateServer callback => call (createServer callback) m
       | CallStopServer => call stopServer m
       | CallForceStatus newStatus => forceStatus newStatus m
       | CallRunSSHCommand command ssh logOutput =>
           call (runSSHCommand command ssh logOutput) m
       | Settle p r => deliver p r m
       end).

Fixpoint run (inputs : list Input) (m : Machine) : Machine :=
  match inputs with
  | [] => m
  | i :: rest => run rest (step i m)
  end.

(** The process right after the service is constructed. *)
Definition boot (SSH_PRIVATEKEY : option string) : Machine :=
  mkMachine (constructor SSH_PRIVATEKEY) [] 0 0 [].

(** ** What the properties speak of *)

(** Every pending task was numbered by [fresh_promise]. *)
Definition well_formed (m : Machine) : Prop :=
  Forall (fun t => task_id t < next_promise m) (tasks m).

(** [m'] is well formed and has numbered at least the promises of [m]. *)
Definition grows (m m' : Machine) : Prop :=
  well_formed m' /\ next_promise m <= next_promise m'.

(** What was emitted between two states of the process. *)
Definition events_since (m m' : Machine) : list Event :=
  skipn (length (trace m)) (trace m').

(** The commands handed to [execCommand], with their session, in order. *)
Fixpoint executed (evs : list Event) : list (NodeSSH * string) :=
  match evs with
  | [] => []
  | EExecCommand ssh command :: rest => (ssh, command) :: executed rest
  | _ :: rest => executed rest
  end.

(** The callbacks invoked, in order. *)
Fixpoint callbacks (evs : list Event) : list Callback :=
  match evs with
  | [] => []
  | ECallback cb :: rest => cb :: callbacks rest
  | _ :: rest => callbacks rest
  end.

(** The polls sent to the cloud client. *)
Fixpoint polls (evs : list Event) : list (option Z) :=
  match evs with
  | [] => []
  | EGetDroplet id :: rest => id :: polls rest
  | _ :: rest => polls rest
  end.

(** What [runSSHCommand] writes to the console for a result. *)
Definition console_output (command : string) (result : SSHExecCommandResponse) : list Event :=
  [EConsole ("Command: " ++ command ++ ", Output:");
   EConsole (stdout result);
   EConsole (stderr result)].

Definition is_console (e : Event) : bool :=
  match e with
  | EConsole _ => true
  | _ => false
  end.

Definition without_console (evs : list Event) : list Event :=
  filter (fun e => negb (is_console e)) evs.

(** How the promise of call [p] was settled, as the caller sees it. *)
Fixpoint settlements (p : nat) (evs : list Event) : list Settled :=
  match evs with
  | [] => []
  | EFulfilled q v :: rest =>
      if Nat.eqb q p then Fulfilled v :: settlements p rest else settlements p rest
  | ERejected q e :: rest =>
      if Nat.eqb q p then Rejected e :: settlements p rest else settlements p rest
  | _ :: rest => settlements p rest
  end.

(** [e] is no connection, or one made with [cfg0]. *)
Definition connects_with (cfg0 : SSHConfig) (e : Event) : Prop :=
  match e with
  | EConnect _ cfg => cfg = cfg0
  | _ => True
  end.

(** The service holds [cfg0], and every connection so far was made with it. *)
Definition config_fixed (cfg0 : SSHConfig) (m : Machine) : Prop :=
  sshConfig (svc m) = cfg0 /\ Forall (connects_with cfg0) (trace m).

(** Frames of calls that can run before any droplet was created. *)
Definition early (k : Frame) : bool :=
  match k with
  | KWaitForDroplet | KInitDroplet _ => false
  | _ => true
  end.

Definition awaits_creation (t : Task) : bool :=
  match frames t with
  | KCreateServer :: _ => true
  | _ => false
  end.

(** A [createServer] is waiting for the cloud client. *)
Definition create_pending (m : Machine) : bool :=
  existsb awaits_creation (tasks m).

Definition no_forceStatus (inputs : list Input) : bool :=
  forallb (fun i => match i with CallForceStatus _ => false | _ => true end) inputs.

(** As long as no droplet was created, the service is down, or starting
    with its create call pending, and only early frames wait. *)
Definition handle_inv (m : Machine) : Prop :=
  dropletId (svc m) = None ->
  (status (svc m) = down \/ (status (svc m) = starting /\ create_pending m = true))
  /\ Forall (fun t => forallb early (frames t) = true) (tasks m).

(** Two states of the process used as examples: a service whose create call
    is pending, and one brought up the regular way (droplet 42 is created,
    the first poll finds it active at 1.2.3.4, and the SSH connection of the
    provisioning step succeeds). *)
Definition starting_machine : Machine :=
  step (CallCreateServer None) (boot None).

Definition up_machine : Machine :=
  run [CallCreateServer (Some (mkCallback 1 None));
       Settle 0 (Fulfilled (VNumber 42));
       Settle 1 (Fulfilled (VDroplet (mkDroplet "active" (Some "1.2.3.4"))));
       Settle 2 (Fulfilled VUndefined)]
      (boot (Some "/root/.ssh/id_rsa")).

(** [e] disposes no session that a caller supplied. *)
Definition spares_supplied (e : Event) : bool :=
  match e with
  | EDispose (Supplied _) => false
  | _ => true
  end.

(** [k] will dispose no session that a caller supplied. *)
Definition will_spare_supplied (k : Frame) : bool :=
  match k with
  | KRunSSHCommand _ (Supplied _) _ true => false
  | _ => true
  end.

Definition sessions_respected (m : Machine) : Prop :=
  Forall (fun t => forallb will_spare_supplied (frames t) = true) (tasks m)
  /\ forallb spares_supplied (trace m) = true.

(** While no droplet was created no address is recorded, and only early
    frames wait. *)
Definition address_inv (m : Machine) : Prop :=
  dropletId (svc m) = None ->
  ipv4 (svc m) = None
  /\ Forall (fun t => forallb early (frames t) = true) (tasks m).

(** The part of the lifecycle a suspended call chain belongs to, named by
    the status the code sets before it suspends there: "starting" for
    [createServer] awaiting the creation, [waitForDroplet] awaiting a poll,
    the timer of the poll loop and [initDroplet] awaiting its connection;
    "stopping" for [stopServer] awaiting the stop command or the deletion.
    Other chains (a call of [runSSHCommand] by itself, a dropped [connect])
    belong to none. *)
Definition lifecycle_phase (ks : list Frame) : option ServerStatus :=
  match ks with
  | [KCreateServer] | [KWaitForDroplet] | [KInitDroplet _] | [KTimeout _] =>
      Some starting
  | [KRunSSHCommand _ _ _ _; KStopServer1] | [KStopServer2] =>
      Some stopping
  | _ => None
  end.

Definition in_lifecycle (t : Task) : bool :=
  match lifecycle_phase (frames t) with
  | Some _ => true
  | None => false
  end.

(** The pending tasks that belong to the lifecycle. *)
Definition in_flight (m : Machine) : list Task :=
  filter in_lifecycle (tasks m).



(** ** The chat bot

    [DiscordBotService], the first module of the file.  A message text is
    looked at character by character ([replace] with a regular expression,
    [trim]), so here a JavaScript string is the list of its UTF-16 code
    units. *)

Definition js_string : Type := list N.

(** A literal of the source; its characters are ASCII. *)
Definition lit (s : string) : js_string :=
  map N_of_ascii (list_ascii_of_string s).

Definition js_eqb (a b : js_string) : bool :=
  if list_eq_dec N.eq_dec a b then true else false.

(** [\d] *)
Definition is_digit (c : N) : bool :=
  (N.leb 48 c && N.leb c 57)%bool.

(** What [trim] removes: the white space and the line terminators of
    ECMAScript (tab, LF, VT, FF, CR, space, no-break space, the Unicode
    space separators, LS, PS and the byte order mark). *)
Definition is_white (c : N) : bool :=
  ((N.leb 9 c && N.leb c 13)
   || N.eqb c 32 || N.eqb c 160 || N.eqb c 5760
   || (N.leb 8192 c && N.leb c 8202)
   || N.eqb c 8232 || N.eqb c 8233 || N.eqb c 8239 || N.eqb c 8287
   || N.eqb c 12288 || N.eqb c 65279)%bool.

Fixpoint trim_start (s : js_string) : js_string :=
  match s with
  | c :: t => if is_white c then trim_start t else s
  | [] => []
  end.

(** [s.trim()] *)
Definition trim (s : js_string) : js_string :=
  rev (trim_start (rev (trim_start s))).

(** The length of [\d*>] at the head of [s], if it is there. *)
Fixpoint digits_then_close (s : js_string) : option nat :=
  match s with
  | c :: t =>
      if is_digit c then option_map S (digits_then_close t)
      else if N.eqb c 62 then Some 1
      else None
  | [] => None
  end.

(** The length of the match of [<@!\d+>] at the head of [s], if there is
    one.  [\d+] is greedy, and since [>] is no digit giving digits back
    finds no other match. *)
Definition mention_length (s : js_string) : option nat :=
  match s with
  | c1 :: c2 :: c3 :: d :: t =>
      if (N.eqb c1 60 && N.eqb c2 64 && N.eqb c3 33 && is_digit d)%bool
      then option_map (fun n => 4 + n) (digits_then_close t)
      else None
  | _ => None
  end.

(** [s.replace(/<@!\d+>/g, "")], with [skip] units of a match still to be
    dropped: the matches are found from left to right, and the search goes
    on after the end of each match. *)
Fixpoint strip_from (skip : nat) (s : js_string) : js_string :=
  match s with
  | [] => []
  | c :: t =>
      match skip with
      | S k => strip_from k t
      | O =>
          match mention_length s with
          | Some n => strip_from (Nat.pred n) t
          | None => c :: strip_from 0 t
          end
      end
  end.

Definition strip_mentions (s : js_string) : js_string := strip_from 0 s.

(** [enum BotCommand] *)
Inductive BotCommand : Type := PING | HELP.

Definition BotCommand_value (c : BotCommand) : string :=
  match c with
  | PING => "ping"
  | HELP => "help"
  end.

(** What the handler reads of a discord.js [Message]: [channel.id],
    [mentions.has] and [content]. *)
Record Message : Type := mkMessage {
  channel_id : string;
  mentions_has : string -> bool;
  content : js_string
}.

(** The fields of [DiscordBotService] the handler reads: the configured
    channel, which [configService.get] may not find, and [client.user.id]. *)
Record DiscordBotService : Type := mkBot {
  channelId : option string;
  client_user_id : string
}.

Inductive BotEvent : Type :=
| BDebug (msg : string)
| BLog (msg : js_string)
| BSend (channel : string) (text : js_string).

(** [pingCommand(message)] *)
Definition pingCommand (message : Message) : list BotEvent :=
  [BSend (channel_id message) (lit "Pong!")].

Definition help_text : js_string :=
  ([10] ++ lit "    **Bot commands**:" ++ [10]
   ++ lit "    - `help`: Displays this message." ++ [10]
   ++ lit "    - `ping`: Responds with " ++ [34] ++ lit "Pong!" ++ [34] ++ lit "." ++ [10]
   ++ lit "    ")%list%N.

(** [helpCommand(message)] *)
Definition helpCommand (message : Message) : list BotEvent :=
  [BSend (channel_id message) help_text].

(** [this.channelId !== id], for a [channelId] that may be undefined. *)
Definition other_channel (configured : option string) (id : string) : bool :=
  match configured with
  | Some c => negb (String.eqb id c)
  | None => true
  end.

(** [messageHandler(message)] *)
Definition messageHandler (bot : DiscordBotService) (message : Message) : list BotEvent :=
  if other_channel (channelId bot) (channel_id message) then
    [BDebug "Ignoring message in wrong channel"]
  else if negb (mentions_has message (client_user_id bot)) then
    [BDebug "Ignoring message without a mention"]
  else
    let commandString := trim (strip_mentions (content message)) in
    if js_eqb commandString (lit (BotCommand_value PING)) then pingCommand message
    else if js_eqb commandString (lit (BotCommand_value HELP)) then helpCommand message
    else
      [BLog (lit "Ignoring unknown command " ++ commandString ++ lit ".")%list;
       BSend (channel_id message)
             (lit ":warning: Unknown command " ++ [34%N] ++ commandString ++ [34%N])%list].

(** The replies among the events of the handler. *)
Definition replies (evs : list BotEvent) : list (string * js_string) :=
  flat_map (fun e => match e with BSend c t => [(c, t)] | _ => [] end) evs.

(** A message the handler does not ignore. *)
Definition addressed (bot : DiscordBotService) (message : Message) : Prop :=
  channelId bot = Some (channel_id message)
  /\ mentions_has message (client_user_id bot) = true.

(** [s] holds no [<]. *)
Definition no_lt (s : js_string) : bool := forallb (fun c => negb (N.eqb c 60)) s.

(** [<@!digits>] and [<@digits>] *)
Definition nickname_mention (digits : js_string) : js_string :=
  (lit "<@!" ++ digits ++ lit ">")%list.

Definition plain_mention (digits : js_string) : js_string :=
  (lit "<@" ++ digits ++ lit ">")%list.

(** ** Symbolic execution *)

(** Unfolds the methods and the monad, and nothing of the data they handle. *)
Declare Reduction exec :=
  cbv beta iota zeta delta
    [step run call deliver resume_task can_resume detached dropped_promise
     suspend set_tasks settle_promise continue resume
     createServer createServer_resume stopServer stopServer_resume1 stopServer_resume2
     forceStatus runSSHCommand runSSHCommand_start runSSHCommand_resume
     initDroplet initDroplet_resume initDroplet_catch
     waitForDroplet waitForDroplet_resume setTimeout_waitForDroplet
     bind ret this update set_status set_dropletId set_ipv4 set_creationCallback
     emit logger console_log fresh_promise new_NodeSSH when for_each
     negb andb ServerStatus_eqb accepts task_id frames awaited cb_throws
     fst snd svc tasks next_promise next_ssh trace
     privateKeyPath sshConfig creationCallback status dropletId ipv4].

Ltac exec :=
  match goal with
  | |- ?G => let G' := eval exec in G in change G'
  end.

(** The same, leaving the inputs not yet consumed alone. *)
Declare Reduction exec_methods :=
  cbv beta iota zeta delta
    [resume_task can_resume detached dropped_promise
     suspend set_tasks settle_promise continue resume
     createServer createServer_resume stopServer stopServer_resume1 stopServer_resume2
     forceStatus runSSHCommand runSSHCommand_start runSSHCommand_resume
     initDroplet initDroplet_resume initDroplet_catch
     waitForDroplet waitForDroplet_resume setTimeout_waitForDroplet
     bind ret this update set_status set_dropletId set_ipv4 set_creationCallback
     emit logger console_log fresh_promise new_NodeSSH when for_each
     negb andb ServerStatus_eqb accepts task_id frames awaited cb_throws
     fst snd svc tasks next_promise next_ssh trace
     privateKeyPath sshConfig creationCallback status dropletId ipv4].

Ltac exec_methods :=
  match goal with
  | |- ?G => let G' := eval exec_methods in G in change G'
  end.

(** Brings [(l ++ [a]) ++ [b]] to [l ++ [a; b]]. *)
Ltac flatten := rewrite <- ?app_assoc; cbn [app].

(** Projections of explicit records. *)
Ltac project :=
  cbn [svc tasks next_promise next_ssh trace
       privateKeyPath sshConfig creationCallback status dropletId ipv4].

(** Names the fields of a machine. *)
Ltac open_machine m :=
  let k := fresh "key" in let c := fresh "cfg" in let cb := fresh "cb" in
  let st := fresh "st" in let id := fresh "id" in let ip := fresh "ip" in
  let ts := fresh "ts" in let np := fresh "np" in let ns := fresh "ns" in
  let tr := fresh "tr" in
  destruct m as [[k c cb st id ip] ts np ns tr].

(** ** forceStatus and getStatus *)

(** C8.  [forceStatus s], from any state of the service, makes [getStatus]
    report [s]; the handle, the address, the stored callback and every other
    field stay as they were, no task is started or dropped, and the only
    thing emitted is the warning of the logger. *)
Theorem forceStatus_sets_only_the_status :
  forall (m : Machine) (s : ServerStatus),
    let m' := step (CallForceStatus s) m in
    report_status (getStatus (svc m')) = s
    /\ report_dropletId (getStatus (svc m')) = report_dropletId (getStatus (svc m))
    /\ report_ipv4 (getStatus (svc m')) = report_ipv4 (getStatus (svc m))
    /\ svc m' = mkService (privateKeyPath (svc m)) (sshConfig (svc m))
                          (creationCallback (svc m)) s
                          (dropletId (svc m)) (ipv4 (svc m))
    /\ tasks m' = tasks m
    /\ next_promise m' = next_promise m
    /\ next_ssh m' = next_ssh m
    /\ trace m' = (trace m ++ [ELogger LWarn ("Forcing status to be " ++ status_text s)])%list.
Proof.
  intros m s. open_machine m. exec. repeat split.
Qed.

(** ** Guards *)

(** C6.  [createServer] called while the status is not "down", and
    [stopServer] called while it is neither "up" nor "weird", leave the
    service (status, handle, address, callback) and the pending tasks as
    they were, emit the warning and nothing else, and their promise is
    fulfilled with [undefined], not rejected. *)
Theorem guard_rejection_is_a_noop :
  forall (m : Machine) (callback : option Callback),
    (status (svc m) <> down ->
     step (CallCreateServer callback) m =
       mkMachine (svc m) (tasks m) (S (next_promise m)) (next_ssh m)
         (trace m ++ [ELogger LWarn "Refusing to create server when status is not 'down'.";
                      EFulfilled (next_promise m) VUndefined]))
    /\ (status (svc m) <> up -> status (svc m) <> weird ->
        step CallStopServer m =
          mkMachine (svc m) (tasks m) (S (next_promise m)) (next_ssh m)
            (trace m ++ [ELogger LWarn "Refusing to stop server when status is not 'up'/'weird'.";
                         EFulfilled (next_promise m) VUndefined])).
Proof.
  intros m callback. open_machine m. split.
  - intros H. exec. destruct st; try (exfalso; apply H; reflexivity);
      exec; rewrite <- app_assoc; reflexivity.
  - intros H1 H2. exec.
    destruct st;
      try (exfalso; apply H1; reflexivity); try (exfalso; apply H2; reflexivity);
      exec; rewrite <- app_assoc; reflexivity.
Qed.

Lemma guard_rejection_is_a_noop_witness :
  svc (step (CallCreateServer (Some (mkCallback 1 None))) starting_machine)
    = svc starting_machine
  /\ svc (step CallStopServer (boot None)) = svc (boot None).
Proof.
  split.
  - rewrite (proj1 (guard_rejection_is_a_noop starting_machine
                      (Some (mkCallback 1 None)))).
    + reflexivity.
    + discriminate.
  - rewrite (proj2 (guard_rejection_is_a_noop (boot None) None)).
    + reflexivity.
    + discriminate.
    + discriminate.
Defined.

(** ** Task identifiers *)

Lemma take_task_app :
  forall (p : nat) (ts l : list Task),
    Forall (fun t => task_id t <> p) ts ->
    take_task p (ts ++ l) =
      match take_task p l with
      | Some (t, rest) => Some (t, (ts ++ rest)%list)
      | None => None
      end.
Proof.
  intros p ts l H. induction H as [|t ts Ht _ IH]; simpl.
  - destruct (take_task p l) as [[t r]|]; reflexivity.
  - apply Nat.eqb_neq in Ht. rewrite Ht, IH.
    destruct (take_task p l) as [[t' r]|]; reflexivity.
Qed.

Lemma older_tasks_differ :
  forall (p : nat) (ts : list Task),
    Forall (fun t => task_id t < p) ts -> Forall (fun t => task_id t <> p) ts.
Proof.
  intros p ts H. eapply Forall_impl; [|exact H]. simpl. intros t Ht. lia.
Qed.

Lemma eqb_succ_self : forall n : nat, Nat.eqb (S n) n = false.
Proof. intros n. apply Nat.eqb_neq. lia. Qed.

(** Settling the promise of a task that sits among the youngest ones [l]. *)
Lemma step_settle :
  forall (p : nat) (r : Settled) (o : MinecraftServerService)
         (ts l : list Task) (np ns : nat) (tr : list Event)
         (t : Task) (rest : list Task),
    Forall (fun t => task_id t < p) ts ->
    take_task p l = Some (t, rest) ->
    can_resume t r = true ->
    step (Settle p r) (mkMachine o (ts ++ l) np ns tr)
    = snd (resume_task t (ts ++ rest) r (mkMachine o (ts ++ l) np ns tr)).
Proof.
  intros p r o ts l np ns tr t rest Hold Htake Hcan.
  unfold step, deliver. cbn [tasks].
  rewrite take_task_app by (apply older_tasks_differ; exact Hold).
  rewrite Htake, Hcan. reflexivity.
Qed.

(** A value of the wrong kind for the waiting frame is not delivered. *)
Lemma step_settle_refused :
  forall (p : nat) (r : Settled) (o : MinecraftServerService)
         (ts l : list Task) (np ns : nat) (tr : list Event)
         (t : Task) (rest : list Task),
    Forall (fun t => task_id t < p) ts ->
    take_task p l = Some (t, rest) ->
    can_resume t r = false ->
    step (Settle p r) (mkMachine o (ts ++ l) np ns tr)
    = mkMachine o (ts ++ l) np ns tr.
Proof.
  intros p r o ts l np ns tr t rest Hold Htake Hcan.
  unfold step, deliver. cbn [tasks].
  rewrite take_task_app by (apply older_tasks_differ; exact Hold).
  rewrite Htake, Hcan. reflexivity.
Qed.

Ltac find_task :=
  cbn [take_task task_id]; rewrite ?Nat.eqb_refl, ?eqb_succ_self; reflexivity.

(** Runs the innermost [Settle] of the goal; [Hold] says that the tasks
    already pending are older than the one resumed. *)
Ltac settle Hold :=
  match goal with
  | |- context [step (Settle ?p ?r) (mkMachine ?o (?ts ++ ?l) ?np ?ns ?tr)] =>
      erewrite (step_settle p r o ts l np ns tr);
      [ | eapply Forall_impl; [|exact Hold]; cbn beta; intros; lia
        | find_task | reflexivity ]
  end;
  match goal with
  | |- context [snd (resume_task ?t ?rest ?r ?m)] =>
      let x := eval exec_methods in (snd (resume_task t rest r m)) in
      change (snd (resume_task t rest r m)) with x
  end;
  flatten.

Ltac refuse Hold :=
  match goal with
  | |- context [step (Settle ?p ?r) (mkMachine ?o (?ts ++ ?l) ?np ?ns ?tr)] =>
      erewrite (step_settle_refused p r o ts l np ns tr);
      [ | eapply Forall_impl; [|exact Hold]; cbn beta; intros; lia
        | find_task | reflexivity ]
  end.

(** ** stopServer *)

(** The first part of an accepted [stopServer]. *)
Lemma stopServer_accepted :
  forall (m : Machine),
    status (svc m) = up \/ status (svc m) = weird ->
    step CallStopServer m =
      mkMachine
        (mkService (privateKeyPath (svc m)) (sshConfig (svc m)) (creationCallback (svc m))
                   stopping (dropletId (svc m)) (ipv4 (svc m)))
        (tasks m ++ [mkTask (S (next_promise m)) [KConnect] false;
                     mkTask (next_promise m)
                       [KRunSSHCommand "systemctl stop minecraft" (Created (next_ssh m)) true true;
                        KStopServer1] true])
        (S (S (next_promise m))) (S (next_ssh m))
        (trace m ++ [ELogger LLog "Stopping droplet!";
                     ELogger LLog "Running 'systemctl stop minecraft'...";
                     ENewSSH (Created (next_ssh m));
                     EConnect (Created (next_ssh m)) (sshConfig (svc m));
                     EExecCommand (Created (next_ssh m)) "systemctl stop minecraft"]).
Proof.
  intros m H. open_machine m. simpl in H.
  destruct H as [H | H]; subst st; exec; flatten; reflexivity.
Qed.

(** C2, as the code has it.  When [stopServer] is accepted (status "up" or
    "weird") and the graceful-stop command returns a result, whatever its
    exit code, the droplet recorded in [dropletId] is deleted, and once the
    deletion returns the status is "down".  The handle and the address are
    not cleared: they keep their values. *)
Theorem stopServer_deletes_when_the_command_returns :
  forall (m : Machine) (result : SSHExecCommandResponse),
    well_formed m ->
    status (svc m) = up \/ status (svc m) = weird ->
    let p := next_promise m in
    let ssh := Created (next_ssh m) in
    let m' := run [CallStopServer;
                   Settle p (Fulfilled (VExec result));
                   Settle p (Fulfilled VUndefined)] m in
    trace m' =
      (trace m ++
         [ELogger LLog "Stopping droplet!";
          ELogger LLog "Running 'systemctl stop minecraft'...";
          ENewSSH ssh;
          EConnect ssh (sshConfig (svc m));
          EExecCommand ssh "systemctl stop minecraft";
          EConsole "Command: systemctl stop minecraft, Output:";
          EConsole (stdout result);
          EConsole (stderr result);
          EDispose ssh;
          ELogger LLog ("Deleting droplet with ID = " ++ show_number (dropletId (svc m)));
          EDeleteDroplet (dropletId (svc m));
          ELogger LLog "Server stopped!";
          EFulfilled p VUndefined])%list
    /\ status (svc m') = down
    /\ dropletId (svc m') = dropletId (svc m)
    /\ ipv4 (svc m') = ipv4 (svc m).
Proof.
  intros m result Hwf Hst p ssh. unfold run.
  rewrite stopServer_accepted by exact Hst.
  subst p ssh. open_machine m. unfold well_formed in Hwf. project. cbn [tasks next_promise] in Hwf.
  settle Hwf. settle Hwf. project. repeat split.
Qed.

Lemma up_machine_is_up :
  getStatus (svc up_machine) = mkReport up (Some "1.2.3.4") (Some 42%Z).
Proof. reflexivity. Qed.

Lemma up_machine_well_formed : well_formed up_machine.
Proof. unfold well_formed. vm_compute. repeat constructor. Qed.

Lemma stopServer_deletes_when_the_command_returns_witness :
  let m' := run [CallStopServer;
                 Settle 12 (Fulfilled (VExec (mkResponse "" "Failed to stop minecraft.service" (Some 5%Z))));
                 Settle 12 (Fulfilled VUndefined)] up_machine in
  status (svc m') = down /\ dropletId (svc m') = Some 42%Z.
Proof.
  pose proof (stopServer_deletes_when_the_command_returns up_machine
                (mkResponse "" "Failed to stop minecraft.service" (Some 5%Z))
                up_machine_well_formed (or_introl eq_refl)) as H.
  cbv zeta in H. destruct H as (_ & Hdown & Hid & _).
  split; [exact Hdown | exact Hid].
Defined.

(** C2 as stated fails twice.  With the service up on droplet 42, a
    graceful-stop command that throws rejects [stopServer]: the droplet is not
    deleted and the status stays "stopping".  And when the command returns
    and the droplet is deleted, the handle and the address are still there. *)
Lemma stopServer_counterexample :
  (let m' := run [CallStopServer; Settle 12 (Rejected "Error: Not connected to server")]
                 up_machine in
   status (svc m') = stopping
   /\ ~ In (EDeleteDroplet (Some 42%Z)) (trace m')
   /\ In (ERejected 12 "Error: Not connected to server") (trace m')
   /\ getStatus (svc m') = mkReport stopping (Some "1.2.3.4") (Some 42%Z))
  /\ (let m' := run [CallStopServer;
                     Settle 12 (Fulfilled (VExec (mkResponse "" "" (Some 0%Z))));
                     Settle 12 (Fulfilled VUndefined)]
                    up_machine in
      In (EDeleteDroplet (Some 42%Z)) (trace m')
      /\ getStatus (svc m') = mkReport down (Some "1.2.3.4") (Some 42%Z)).
Proof.
  split; cbv zeta.
  - split; [reflexivity|]. split.
    + vm_compute. intros H.
      repeat (destruct H as [H | H]; [discriminate H|]). exact H.
    + split; [|reflexivity]. vm_compute. tauto.
  - split; [|reflexivity]. vm_compute. tauto.
Qed.

(** ** createServer *)

Lemma createServer_accepted :
  forall (m : Machine) (callback : option Callback),
    status (svc m) = down ->
    step (CallCreateServer callback) m =
      mkMachine
        (mkService (privateKeyPath (svc m)) (sshConfig (svc m)) callback
                   starting (dropletId (svc m)) (ipv4 (svc m)))
        (tasks m ++ [mkTask (next_promise m) [KCreateServer] true])
        (S (next_promise m)) (next_ssh m)
        (trace m ++ [ECreateDroplet]).
Proof.
  intros m callback H. open_machine m. simpl in H. subst st. exec. reflexivity.
Qed.

(** C4, as the code has it.  When [createServer] is accepted and the create
    call of the cloud client fails, the status is "down" again and the call
    has recorded no handle: [dropletId] and [ipv4] are what they were before
    the call, no poll is started, and the next [createServer] is accepted. *)
Theorem createServer_failure_reverts_to_down :
  forall (m : Machine) (callback retry : option Callback) (err : Error),
    well_formed m ->
    status (svc m) = down ->
    let p := next_promise m in
    let m' := run [CallCreateServer callback; Settle p (Rejected err)] m in
    status (svc m') = down
    /\ dropletId (svc m') = dropletId (svc m)
    /\ ipv4 (svc m') = ipv4 (svc m)
    /\ (dropletId (svc m) = None -> report_dropletId (getStatus (svc m')) = None)
    /\ tasks m' = tasks m
    /\ trace m' = (trace m ++ [ECreateDroplet;
                               ELogger LError "Error while creating droplet!";
                               ELogger LError err;
                               EFulfilled p VUndefined])%list
    /\ trace (step (CallCreateServer retry) m') = (trace m' ++ [ECreateDroplet])%list.
Proof.
  intros m callback retry err Hwf Hst p. unfold run.
  rewrite createServer_accepted by exact Hst.
  subst p. open_machine m. unfold well_formed in Hwf. project.
  cbn [tasks next_promise] in Hwf. simpl in Hst. subst st.
  settle Hwf. rewrite app_nil_r. project.
  repeat split; try (intros H; exact H).
Qed.

Lemma createServer_failure_reverts_to_down_witness :
  let m' := run [CallCreateServer None; Settle 0 (Rejected "422 Unprocessable Entity")]
                (boot None) in
  getStatus (svc m') = mkReport down None None.
Proof.
  pose proof (createServer_failure_reverts_to_down (boot None) None None
                "422 Unprocessable Entity" (Forall_nil _) eq_refl) as H.
  cbv zeta in H. change (next_promise (boot None)) with 0 in H.
  destruct H as (Hdown & Hid & Hip & _).
  cbv zeta. unfold getStatus. rewrite Hdown, Hid, Hip. reflexivity.
Defined.

(** C4 as stated fails after a first cycle: droplet 42 is created, brought
    up and stopped; the next [createServer] fails, and the service is down
    with the handle of droplet 42 still in [dropletId]. *)
Lemma createServer_failure_counterexample :
  let m := run [CallStopServer;
                Settle 12 (Fulfilled (VExec (mkResponse "" "" (Some 0%Z))));
                Settle 12 (Fulfilled VUndefined)] up_machine in
  let m' := run [CallCreateServer None; Settle 14 (Rejected "422 Unprocessable Entity")] m in
  status (svc m) = down
  /\ In (ELogger LError "Error while creating droplet!") (trace m')
  /\ getStatus (svc m') = mkReport down (Some "1.2.3.4") (Some 42%Z)
  /\ report_dropletId (getStatus (svc m')) <> None.
Proof.
  cbv zeta. split; [reflexivity|]. split; [vm_compute; tauto|].
  split; [reflexivity|]. vm_compute. discriminate.
Qed.

(** ** Provisioning *)

Lemma skipn_app_length :
  forall (A : Type) (l l' : list A), skipn (length l) (l ++ l') = l'.
Proof. intros A l l'. induction l as [|a l IH]; simpl; [reflexivity | exact IH]. Qed.

Lemma skipn_length_plus :
  forall (A : Type) (l l' : list A) (n : nat),
    skipn (length l + n) (l ++ l') = skipn n l'.
Proof. intros A l l' n. induction l as [|a l IH]; simpl; [reflexivity | exact IH]. Qed.

Lemma for_in_keys_script :
  for_in_keys initializationScript = ["0"; "1"; "2"; "3"; "4"; "5"; "6"; "7"; "8"].
Proof. reflexivity. Qed.

(** C1 fails on the code.  After the connection of the provisioning step is
    made, the loop [for (const cmd in initializationScript)] hands the
    indices of the script, "0" to "8", to [runSSHCommand] on the shared
    session; no command of the script is executed, whatever the state of
    the service and the callback. *)
Theorem initDroplet_runs_the_indices :
  forall (m : Machine) (v : Value),
    let ssh := Created (next_ssh m) in
    let m1 := snd (initDroplet m) in
    let m2 := snd (initDroplet_resume ssh (Fulfilled v) m1) in
    fst (initDroplet m) = Await [KInitDroplet ssh]
    /\ events_since m m1 = [ELogger LLog "Initializing droplet with SSH...";
                           ENewSSH ssh; EConnect ssh (sshConfig (svc m))]
    /\ executed (events_since m1 m2) =
         [(ssh, "0"); (ssh, "1"); (ssh, "2"); (ssh, "3"); (ssh, "4");
          (ssh, "5"); (ssh, "6"); (ssh, "7"); (ssh, "8")]
    /\ (forall cmd, In cmd initializationScript ->
                    ~ In (ssh, cmd) (executed (events_since m1 m2))).
Proof.
  intros m v. open_machine m. cbv zeta. project.
  assert (Hexec :
    executed (events_since
      (snd (initDroplet (mkMachine (mkService key cfg cb st id ip) ts np ns tr)))
      (snd (initDroplet_resume (Created ns) (Fulfilled v)
         (snd (initDroplet (mkMachine (mkService key cfg cb st id ip) ts np ns tr))))))
    = [(Created ns, "0"); (Created ns, "1"); (Created ns, "2"); (Created ns, "3");
       (Created ns, "4"); (Created ns, "5"); (Created ns, "6"); (Created ns, "7");
       (Created ns, "8")]).
  { unfold events_since, initDroplet_resume. rewrite for_in_keys_script.
    exec. destruct cb as [[n [e|]]|]; exec; flatten;
      rewrite length_app, skipn_length_plus; reflexivity. }
  split; [reflexivity|]. split.
  - unfold events_since. exec. flatten. apply skipn_app_length.
  - split; [exact Hexec|]. rewrite Hexec. intros cmd Hin Hran.
    simpl in Hin.
    repeat (destruct Hin as [Hin | Hin];
            [subst cmd; simpl in Hran;
             repeat (destruct Hran as [Hran | Hran]; [discriminate Hran|]);
             exact Hran|]).
    exact Hin.
Qed.

(** ** runSSHCommand *)

Lemma runSSHCommand_called :
  forall (m : Machine) (command : string) (ssh : option NodeSSH) (logOutput : bool),
    step (CallRunSSHCommand command ssh logOutput) m =
      match ssh with
      | None =>
          mkMachine (svc m)
            (tasks m ++ [mkTask (S (next_promise m)) [KConnect] false;
                         mkTask (next_promise m)
                           [KRunSSHCommand command (Created (next_ssh m)) logOutput true] true])
            (S (S (next_promise m))) (S (next_ssh m))
            (trace m ++ [ENewSSH (Created (next_ssh m));
                         EConnect (Created (next_ssh m)) (sshConfig (svc m));
                         EExecCommand (Created (next_ssh m)) command])
      | Some s =>
          mkMachine (svc m)
            (tasks m ++ [mkTask (next_promise m)
                           [KRunSSHCommand command s logOutput false] true])
            (S (next_promise m)) (next_ssh m)
            (trace m ++ [EExecCommand s command])
      end.
Proof.
  intros m command ssh logOutput. open_machine m.
  destruct ssh as [s|]; exec; flatten; reflexivity.
Qed.

(** C7 on the code.  Called without a session, [runSSHCommand] makes one and
    connects it; when [execCommand] returns a result the session is disposed
    before the result is handed back, but when [execCommand] throws the call
    is rejected at once and the session it made is never disposed.  A
    session supplied by the caller is not disposed on either path. *)
Theorem runSSHCommand_session_release :
  forall (m : Machine) (command : string) (logOutput : bool),
    well_formed m ->
    let p := next_promise m in
    let own := Created (next_ssh m) in
    (forall err : Error,
        trace (run [CallRunSSHCommand command None logOutput; Settle p (Rejected err)] m)
        = (trace m ++ [ENewSSH own; EConnect own (sshConfig (svc m));
                       EExecCommand own command;
                       ERejected p err])%list)
    /\ (forall result : SSHExecCommandResponse,
        trace (run [CallRunSSHCommand command None logOutput;
                    Settle p (Fulfilled (VExec result))] m)
        = (trace m ++ [ENewSSH own; EConnect own (sshConfig (svc m));
                       EExecCommand own command]
             ++ (if logOutput then console_output command result else [])
             ++ [EDispose own; EFulfilled p (VExec result)])%list)
    /\ (forall (ssh : NodeSSH) (r : Settled),
        ~ In (EDispose ssh)
             (events_since m (run [CallRunSSHCommand command (Some ssh) logOutput;
                                   Settle p r] m))).
Proof.
  intros m command logOutput Hwf p own. subst p own. unfold run.
  split; [|split].
  - intros err. rewrite runSSHCommand_called.
    open_machine m. unfold well_formed in Hwf. cbn [tasks next_promise] in Hwf. project.
    settle Hwf. reflexivity.
  - intros result. rewrite runSSHCommand_called.
    open_machine m. unfold well_formed in Hwf. cbn [tasks next_promise] in Hwf. project.
    destruct logOutput; settle Hwf; reflexivity.
  - intros ssh r. rewrite runSSHCommand_called.
    open_machine m. unfold well_formed in Hwf. cbn [tasks next_promise] in Hwf.
    unfold events_since. project.
    destruct r as [v | e].
    + destruct v as [| n | d | result];
        try (unfold step, deliver; cbn [tasks];
             rewrite take_task_app by (apply older_tasks_differ; exact Hwf);
             cbn [take_task task_id]; rewrite Nat.eqb_refl;
             cbn; rewrite skipn_app_length; cbn; intros [H|H]; [discriminate H|exact H]).
      destruct logOutput; settle Hwf; project; rewrite skipn_app_length;
        cbn; intros H; repeat (destruct H as [H|H]; [discriminate H|]); exact H.
    + settle Hwf. project. rewrite skipn_app_length.
      cbn. intros H; repeat (destruct H as [H|H]; [discriminate H|]); exact H.
Qed.

(** The graceful stop of [stopServer] on a fresh process whose
    [execCommand] throws: the session [Created 0] stays open. *)
Lemma runSSHCommand_session_release_witness :
  ~ In (EDispose (Created 0))
       (trace (run [CallRunSSHCommand "systemctl stop minecraft" None true;
                    Settle 0 (Rejected "Error: Not connected to server")]
                   (boot None)))
  /\ In (ENewSSH (Created 0))
       (trace (run [CallRunSSHCommand "systemctl stop minecraft" None true;
                    Settle 0 (Rejected "Error: Not connected to server")]
                   (boot None))).
Proof.
  pose proof (proj1 (runSSHCommand_session_release (boot None)
                       "systemctl stop minecraft" true (Forall_nil _))
                    "Error: Not connected to server") as H.
  change (next_promise (boot None)) with 0 in H.
  rewrite H. cbn. split.
  - intros F. repeat (destruct F as [F|F]; [discriminate F|]). exact F.
  - left. reflexivity.
Defined.

(** C10.  Whatever the command, the session (supplied or not) and the way
    [execCommand] settles, [runSSHCommand] hands the same result or error to
    its caller with [logOutput] true and with [logOutput] false; a result of
    [execCommand] is handed back as it is.  The service is left in the same
    state, and the two runs differ by the lines written to the console
    only. *)
Theorem logOutput_only_changes_the_console :
  forall (m : Machine) (command : string) (ssh : option NodeSSH) (r : Settled),
    well_formed m ->
    let p := next_promise m in
    let quiet := run [CallRunSSHCommand command ssh false; Settle p r] m in
    let loud := run [CallRunSSHCommand command ssh true; Settle p r] m in
    settlements p (events_since m loud) = settlements p (events_since m quiet)
    /\ (forall result, r = Fulfilled (VExec result) ->
                       settlements p (events_since m loud) = [Fulfilled (VExec result)])
    /\ svc loud = svc quiet
    /\ without_console (events_since m loud) = events_since m quiet.
Proof.
  intros m command ssh r Hwf p quiet loud. subst p quiet loud. unfold run.
  rewrite !runSSHCommand_called.
  open_machine m. unfold well_formed in Hwf. cbn [tasks next_promise] in Hwf.
  unfold events_since. project.
  destruct r as [v | e].
  - destruct v as [| n | d | result].
    4: { destruct ssh as [s|]; settle Hwf; settle Hwf; project;
         rewrite !skipn_app_length; cbn; rewrite Nat.eqb_refl;
         (split; [reflexivity|]); (split; [intros r Hr; inversion Hr; reflexivity|]);
         split; reflexivity. }
    all: destruct ssh as [s|]; refuse Hwf; refuse Hwf;
      project; rewrite !skipn_app_length; cbn;
      (split; [reflexivity|]); (split; [intros r Hr; discriminate Hr|]);
      split; reflexivity.
  - destruct ssh as [s|]; settle Hwf; settle Hwf; project;
      rewrite !skipn_app_length; cbn; rewrite Nat.eqb_refl;
      (split; [reflexivity|]); (split; [intros r Hr; discriminate Hr|]);
      split; reflexivity.
Qed.

Lemma logOutput_only_changes_the_console_witness :
  let result := mkResponse "active" "" (Some 0%Z) in
  let quiet := run [CallRunSSHCommand "systemctl is-active minecraft" None false;
                    Settle 12 (Fulfilled (VExec result))] up_machine in
  let loud := run [CallRunSSHCommand "systemctl is-active minecraft" None true;
                   Settle 12 (Fulfilled (VExec result))] up_machine in
  settlements 12 (events_since up_machine loud) = [Fulfilled (VExec result)]
  /\ settlements 12 (events_since up_machine quiet) = [Fulfilled (VExec result)].
Proof.
  cbv zeta.
  pose proof (logOutput_only_changes_the_console up_machine
                "systemctl is-active minecraft" None
                (Fulfilled (VExec (mkResponse "active" "" (Some 0%Z))))
                up_machine_well_formed) as H.
  cbv zeta in H. change (next_promise up_machine) with 12 in H.
  destruct H as (Hsame & Hresult & _).
  split.
  - apply Hresult. reflexivity.
  - rewrite <- Hsame. apply Hresult. reflexivity.
Defined.

(** ** The poll loop *)

(** A poll that finds the droplet not ready leaves the service as it is and
    arms a timer of 5000 ms on the unbound method. *)
Lemma waitForDroplet_not_ready :
  forall (m : Machine) (res : Droplet),
    droplet_status res <> "active" \/ truthy (ip_address res) = false ->
    let m' := snd (resume KWaitForDroplet (Fulfilled (VDroplet res)) m) in
    svc m' = svc m
    /\ tasks m' = (tasks m ++ [mkTask (next_promise m) [KTimeout 5000] false])%list
    /\ exists msg, trace m' = (trace m ++ [ELogger LLog msg; ESetTimeout 5000])%list.
Proof.
  intros m res H. open_machine m. cbv zeta. exec.
  destruct (droplet_status res =? "active") eqn:E; exec.
  - destruct H as [H | H].
    + apply String.eqb_eq in E. contradiction.
    + rewrite H. exec. flatten. repeat split. eexists. reflexivity.
  - flatten. repeat split. eexists. reflexivity.
Qed.

(** When that timer fires, [waitForDroplet] runs with the Timeout object as
    [this]: it throws before it asks the cloud client anything, nobody
    handles the rejection, and nothing is scheduled. *)
Lemma timer_tick_throws :
  forall (m : Machine) (ms : Z),
    resume (KTimeout ms) (Fulfilled VUndefined) m =
      (Return VUndefined,
       mkMachine (svc m) (tasks m) (S (next_promise m)) (next_ssh m)
         (trace m ++ [EUnhandledRejection
                        "TypeError: Cannot read property 'getDroplet' of undefined"])).
Proof. intros m ms. open_machine m. reflexivity. Qed.

(** With nothing pending, no promise can settle. *)
Lemma nothing_pending :
  forall (m : Machine) (later : list (nat * Settled)),
    tasks m = [] ->
    run (map (fun x => Settle (fst x) (snd x)) later) m = m.
Proof.
  intros m later H. induction later as [|[p r] later IH]; simpl; [reflexivity|].
  unfold step at 1. unfold deliver. rewrite H. simpl. exact IH.
Qed.

(** X1.  The first poll finds the droplet active with an address: the address is
    recorded, provisioning starts once, and when its connection is made the
    service is up and the callback has run once. *)
Lemma first_poll_active_brings_up :
  forall (m : Machine) (callback : Callback) (id : Z) (address : string),
    well_formed m ->
    status (svc m) = down ->
    truthy (Some address) = true ->
    cb_throws callback = None ->
    let p := next_promise m in
    let m' := run [CallCreateServer (Some callback);
                   Settle p (Fulfilled (VNumber id));
                   Settle (S p) (Fulfilled (VDroplet (mkDroplet "active" (Some address))));
                   Settle (S (S p)) (Fulfilled VUndefined)] m in
    getStatus (svc m') = mkReport up (Some address) (Some id)
    /\ callbacks (events_since m m') = [callback]
    /\ polls (events_since m m') = [Some id].
Proof.
  intros m callback id address Hwf Hst Haddr Hcb p. subst p. unfold run.
  rewrite createServer_accepted by exact Hst.
  open_machine m. unfold well_formed in Hwf. cbn [tasks next_promise] in Hwf.
  destruct callback as [n thr]. cbn [cb_throws] in Hcb. subst thr.
  unfold events_since. project.
  settle Hwf. settle Hwf.
  cbn [droplet_status ip_address]. rewrite String.eqb_refl, Haddr. exec_methods. flatten.
  settle Hwf. rewrite for_in_keys_script. exec_methods. flatten.
  project. rewrite skipn_app_length. repeat split.
Qed.

(** X2.  The first poll finds the droplet not ready, whatever the state the
    service was created in: the timer is armed, fires, and the loop ends
    there.  The cloud client was asked once, the status is "starting", and
    the poll loop has left nothing pending. *)
Lemma not_ready_poll_ends_the_loop :
  forall (m : Machine) (callback : option Callback) (id : Z) (res : Droplet),
    well_formed m ->
    status (svc m) = down ->
    droplet_status res <> "active" \/ truthy (ip_address res) = false ->
    let p := next_promise m in
    let m' := run [CallCreateServer callback;
                   Settle p (Fulfilled (VNumber id));
                   Settle (S p) (Fulfilled (VDroplet res));
                   Settle (S (S p)) (Fulfilled VUndefined)] m in
    status (svc m') = starting
    /\ ipv4 (svc m') = ipv4 (svc m)
    /\ tasks m' = tasks m
    /\ polls (events_since m m') = [Some id]
    /\ callbacks (events_since m m') = []
    /\ In (EUnhandledRejection "TypeError: Cannot read property 'getDroplet' of undefined")
          (events_since m m').
Proof.
  intros m callback id res Hwf Hst Hres p. subst p. unfold run.
  rewrite createServer_accepted by exact Hst.
  open_machine m. unfold well_formed in Hwf. cbn [tasks next_promise] in Hwf.
  unfold events_since. project.
  settle Hwf. settle Hwf.
  destruct (droplet_status res =? "active") eqn:E.
  - destruct Hres as [Hres | Hres]; [apply String.eqb_eq in E; contradiction|].
    rewrite Hres. exec_methods. flatten.
    settle Hwf. rewrite app_nil_r. project. rewrite skipn_app_length.
    repeat split. cbn. tauto.
  - exec_methods. flatten.
    settle Hwf. rewrite app_nil_r. project. rewrite skipn_app_length.
    repeat split. cbn. tauto.
Qed.

(** C5 fails on the code as soon as one poll finds the droplet not ready.
    Droplet 42 is created with a callback; the first poll answers "new"; the
    timer set for 5000 ms fires.  The second tick runs unbound and throws
    without polling: the cloud client was asked once, the service is
    "starting" with no address, the callback has not run, and since nothing
    is pending no later answer can change that. *)
Theorem poll_loop_dies_after_first_reschedule :
  let m := run [CallCreateServer (Some (mkCallback 1 None));
                Settle 0 (Fulfilled (VNumber 42));
                Settle 1 (Fulfilled (VDroplet (mkDroplet "new" None)));
                Settle 2 (Fulfilled VUndefined)]
               (boot (Some "/root/.ssh/id_rsa")) in
  trace m = [ECreateDroplet;
             ELogger LLog "Created droplet with ID 42. Waiting for network...";
             EGetDroplet (Some 42%Z);
             EFulfilled 0 VUndefined;
             ELogger LLog "Droplet 42 not active. Waiting...";
             ESetTimeout 5000;
             EUnhandledRejection "TypeError: Cannot read property 'getDroplet' of undefined"]
  /\ polls (trace m) = [Some 42%Z]
  /\ callbacks (trace m) = []
  /\ getStatus (svc m) = mkReport starting None (Some 42%Z)
  /\ tasks m = []
  /\ (forall later : list (nat * Settled),
        run (map (fun x => Settle (fst x) (snd x)) later) m = m).
Proof.
  cbv zeta. repeat (split; [reflexivity|]).
  intros later. apply nothing_pending. reflexivity.
Qed.

(** ** The SSH configuration *)

Ltac fixed_done H :=
  destruct H as [Hcfg Htr]; cbn [svc sshConfig trace] in Hcfg, Htr;
  split; [exact Hcfg
         | first [exact Htr
                 | apply Forall_app; split; [exact Htr | repeat constructor; exact Hcfg]]].

Section SSHConfigIsFixed.

Variable cfg0 : SSHConfig.

Lemma resume_config_fixed :
  forall (k : Frame) (r : Settled) (m : Machine),
    config_fixed cfg0 m -> config_fixed cfg0 (snd (resume k r m)).
Proof.
  intros k r m H. open_machine m. unfold config_fixed in *.
  destruct k as [ | | ssh | command ssh [|] [|] | | | ms | ];
    destruct r as [[| n | d | res] | e]; exec;
    try (flatten; project; fixed_done H).
  (* initDroplet once connected: the loop, then the callback *)
  all: try (rewrite for_in_keys_script; exec;
            destruct cb as [[? [?|]]|]; exec; flatten; project; fixed_done H).
  (* waitForDroplet: not active, no address, or ready *)
  destruct (droplet_status d =? "active"); exec;
    [destruct (truthy (ip_address d)); exec|]; flatten; project; fixed_done H.
Qed.

Lemma continue_config_fixed :
  forall (ks : list Frame) (r : Settled) (m : Machine),
    config_fixed cfg0 m -> config_fixed cfg0 (snd (continue ks r m)).
Proof.
  induction ks as [|k ks IH]; intros r m H; [exact H|].
  cbn [continue]. unfold bind.
  pose proof (resume_config_fixed k r m H) as H1.
  destruct (resume k r m) as [s m1]. cbn [snd] in H1.
  destruct s; [apply IH; exact H1 | apply IH; exact H1 | exact H1].
Qed.

Lemma emit_config_fixed :
  forall (e : Event) (m : Machine),
    connects_with cfg0 e -> config_fixed cfg0 m -> config_fixed cfg0 (snd (emit e m)).
Proof.
  intros e m He [Hcfg Htr]. split; [exact Hcfg|].
  cbn. apply Forall_app. split; [exact Htr | repeat constructor; exact He].
Qed.

Lemma resume_task_config_fixed :
  forall (t : Task) (rest : list Task) (r : Settled) (m : Machine),
    config_fixed cfg0 m -> config_fixed cfg0 (snd (resume_task t rest r m)).
Proof.
  intros t rest r m H. unfold resume_task, bind.
  assert (H0 : config_fixed cfg0 (snd (set_tasks rest m))) by exact H.
  destruct (set_tasks rest m) as [u m0]. cbn [snd] in H0.
  pose proof (continue_config_fixed (frames t) r m0 H0) as H1.
  destruct (continue (frames t) r m0) as [o m1]. cbn [snd] in H1.
  destruct o as [final | ks].
  - unfold settle_promise.
    destruct final, (awaited t);
      first [exact H1 | apply emit_config_fixed; [exact I | exact H1]].
  - exact H1.
Qed.

Lemma call_config_fixed :
  forall (body : M Step),
    (forall m, config_fixed cfg0 m -> config_fixed cfg0 (snd (body m))) ->
    forall m, config_fixed cfg0 m -> config_fixed cfg0 (snd (call body m)).
Proof.
  intros body Hbody m H. unfold call, bind.
  assert (H0 : config_fixed cfg0 (snd (fresh_promise m))) by exact H.
  destruct (fresh_promise m) as [p m0]. cbn [snd] in H0.
  pose proof (Hbody m0 H0) as H1.
  destruct (body m0) as [s m1]. cbn [snd] in H1.
  destruct s; unfold settle_promise;
    first [exact H1 | apply emit_config_fixed; [exact I | exact H1]].
Qed.

Lemma step_config_fixed :
  forall (i : Input) (m : Machine),
    config_fixed cfg0 m -> config_fixed cfg0 (step i m).
Proof.
  intros i m H. destruct i as [callback | | newStatus | command ssh logOutput | p r];
    unfold step.
  - apply call_config_fixed; [|exact H]. clear m H. intros m H.
    open_machine m. unfold config_fixed in *. exec.
    destruct st; exec; flatten; project; fixed_done H.
  - apply call_config_fixed; [|exact H]. clear m H. intros m H.
    open_machine m. unfold config_fixed in *. exec.
    destruct st; exec; flatten; project; fixed_done H.
  - open_machine m. unfold config_fixed in *. exec. fixed_done H.
  - apply call_config_fixed; [|exact H]. clear m H. intros m H.
    open_machine m. unfold config_fixed in *.
    destruct ssh as [s|]; exec; flatten; project; fixed_done H.
  - unfold deliver. destruct (take_task p (tasks m)) as [[t rest]|]; [|exact H].
    destruct (can_resume t r); [|exact H].
    apply resume_task_config_fixed. exact H.
Qed.

Lemma run_config_fixed :
  forall (inputs : list Input) (m : Machine),
    config_fixed cfg0 m -> config_fixed cfg0 (run inputs m).
Proof.
  induction inputs as [|i inputs IH]; intros m H; [exact H|].
  cbn [run]. apply IH. apply step_config_fixed. exact H.
Qed.

End SSHConfigIsFixed.

(** C9.  The constructor builds [sshConfig] from [this.ipv4] while that
    field has no value, so its host is undefined.  Whatever is called and
    however the pending promises settle afterwards, the service still holds
    that object, and every [connect], of [runSSHCommand] as of [initDroplet],
    was given it: the address recorded in [ipv4] never reaches the host. *)
Theorem sshConfig_keeps_the_construction_time_host :
  forall (SSH_PRIVATEKEY : option string) (inputs : list Input),
    let m := run inputs (boot SSH_PRIVATEKEY) in
    sshConfig (constructor SSH_PRIVATEKEY)
      = mkSSHConfig (ipv4 (constructor SSH_PRIVATEKEY)) "root" SSH_PRIVATEKEY
    /\ ipv4 (constructor SSH_PRIVATEKEY) = None
    /\ sshConfig (svc m) = mkSSHConfig None "root" SSH_PRIVATEKEY
    /\ (forall (ssh : NodeSSH) (cfg : SSHConfig),
          In (EConnect ssh cfg) (trace m) ->
          cfg = mkSSHConfig None "root" SSH_PRIVATEKEY /\ host cfg = None).
Proof.
  intros key inputs m.
  assert (H : config_fixed (mkSSHConfig None "root" key) m).
  { apply run_config_fixed. split; [reflexivity | constructor]. }
  destruct H as [Hcfg Htr].
  split; [reflexivity|]. split; [reflexivity|]. split; [exact Hcfg|].
  intros ssh cfg Hin.
  rewrite Forall_forall in Htr. specialize (Htr _ Hin). cbn in Htr.
  subst cfg. split; reflexivity.
Qed.

(** On the service that went up at 1.2.3.4, the provisioning connection was
    made with no host. *)
Example up_machine_connected_without_host :
  ipv4 (svc up_machine) = Some "1.2.3.4"
  /\ In (EConnect (Created 0) (mkSSHConfig None "root" (Some "/root/.ssh/id_rsa")))
        (trace up_machine).
Proof. split; [reflexivity | vm_compute; tauto]. Qed.

(** ** The instance handle *)

(** All cases of a resumed frame, executed. *)
Ltac resume_cases k r cb :=
  destruct k as [ | | ? | ? ? [|] [|] | | | ? | ];
  destruct r as [[| ? | ?d | ?] | ?]; exec;
  try (rewrite for_in_keys_script; exec; destruct cb as [[? [?|]]|]; exec);
  try match goal with
      | |- context [droplet_status ?d =? "active"] =>
          destruct (droplet_status d =? "active"); exec;
          [destruct (truthy (ip_address d)); exec|]
      end;
  flatten; project.

(** No method clears [dropletId]. *)
Lemma resume_keeps_handle :
  forall (k : Frame) (r : Settled) (m : Machine),
    dropletId (svc m) <> None -> dropletId (svc (snd (resume k r m))) <> None.
Proof.
  intros k r m H. open_machine m. cbn in H.
  resume_cases k r cb; solve [exact H | discriminate].
Qed.

Lemma continue_keeps_handle :
  forall (ks : list Frame) (r : Settled) (m : Machine),
    dropletId (svc m) <> None -> dropletId (svc (snd (continue ks r m))) <> None.
Proof.
  induction ks as [|k ks IH]; intros r m H; [exact H|].
  cbn [continue]. unfold bind.
  pose proof (resume_keeps_handle k r m H) as H1.
  destruct (resume k r m) as [s m1]. cbn [snd] in H1.
  destruct s; [apply IH; exact H1 | apply IH; exact H1 | exact H1].
Qed.

Lemma step_keeps_handle :
  forall (i : Input) (m : Machine),
    dropletId (svc m) <> None -> dropletId (svc (step i m)) <> None.
Proof.
  intros i m H.
  destruct i as [callback | | newStatus | command ssh logOutput | p r].
  - open_machine m. cbn in H. exec. destruct st; exec; exact H.
  - open_machine m. cbn in H. exec. destruct st; exec; exact H.
  - open_machine m. exact H.
  - open_machine m. cbn in H. destruct ssh; exec; exact H.
  - unfold step, deliver. destruct (take_task p (tasks m)) as [[t rest]|]; [|exact H].
    destruct (can_resume t r); [|exact H].
    unfold resume_task, bind.
    assert (H0 : dropletId (svc (snd (set_tasks rest m))) <> None) by exact H.
    destruct (set_tasks rest m) as [u m0]. cbn [snd] in H0.
    pose proof (continue_keeps_handle (frames t) r m0 H0) as H1.
    destruct (continue (frames t) r m0) as [o m1]. cbn [snd] in H1.
    destruct o as [[v|e]|ks]; destruct (awaited t); exact H1.
Qed.

Lemma run_keeps_handle :
  forall (inputs : list Input) (m : Machine),
    dropletId (svc m) <> None -> dropletId (svc (run inputs m)) <> None.
Proof.
  induction inputs as [|i inputs IH]; intros m H; [exact H|].
  cbn [run]. apply IH. apply step_keeps_handle. exact H.
Qed.

Lemma run_app :
  forall (inputs more : list Input) (m : Machine),
    run (inputs ++ more) m = run more (run inputs m).
Proof.
  induction inputs as [|i inputs IH]; intros more m; [reflexivity|].
  cbn [run app]. apply IH.
Qed.

(** While no droplet was ever created, a resumed early frame starts
    nothing, and can only leave the status alone or set it to "down". *)
Lemma resume_early :
  forall (k : Frame) (r : Settled) (m : Machine),
    early k = true ->
    dropletId (svc (snd (resume k r m))) = None ->
    tasks (snd (resume k r m)) = tasks m
    /\ (status (svc (snd (resume k r m))) = status (svc m)
        \/ status (svc (snd (resume k r m))) = down)
    /\ match fst (resume k r m) with
       | Await ks => forallb early ks = true
       | _ => True
       end.
Proof.
  intros k r m Hk. open_machine m. revert Hk.
  destruct k as [ | | ? | ? ? [|] [|] | | | ? | ]; cbn [early]; intros Hk;
    try discriminate Hk;
    destruct r as [[| ? | ? | ?] | ?]; exec; intros H;
    try discriminate H; repeat split; solve [left; reflexivity | right; reflexivity].
Qed.

(** The frame of [createServer], resumed with an answer of the cloud client
    that leaves no handle, sets the status to "down". *)
Lemma resume_create_settled :
  forall (r : Settled) (m : Machine),
    accepts KCreateServer r = true ->
    dropletId (svc (snd (resume KCreateServer r m))) = None ->
    status (svc (snd (resume KCreateServer r m))) = down.
Proof.
  intros r m. open_machine m.
  destruct r as [[| ? | ? | ?] | ?]; exec; intros Ha H;
    try discriminate Ha; try discriminate H; reflexivity.
Qed.

Lemma handle_was_missing :
  forall (ks : list Frame) (r : Settled) (m : Machine),
    dropletId (svc (snd (continue ks r m))) = None -> dropletId (svc m) = None.
Proof.
  intros ks r m H. destruct (dropletId (svc m)) as [id|] eqn:E; [|reflexivity].
  exfalso. apply (continue_keeps_handle ks r m); [rewrite E; discriminate | exact H].
Qed.

Lemma continue_early :
  forall (ks : list Frame) (r : Settled) (m : Machine),
    forallb early ks = true ->
    dropletId (svc (snd (continue ks r m))) = None ->
    tasks (snd (continue ks r m)) = tasks m
    /\ (status (svc (snd (continue ks r m))) = status (svc m)
        \/ status (svc (snd (continue ks r m))) = down)
    /\ match fst (continue ks r m) with
       | inr ks' => forallb early ks' = true
       | inl _ => True
       end.
Proof.
  induction ks as [|k ks IH]; intros r m Hks H.
  - cbn. repeat split. left. reflexivity.
  - cbn [forallb] in Hks. apply andb_prop in Hks. destruct Hks as [Hk Hks].
    revert H. cbn [continue]. unfold bind.
    pose proof (resume_early k r m Hk) as Hres.
    destruct (resume k r m) as [s m1]. cbn [fst snd] in Hres.
    assert (Hgo : forall r',
               dropletId (svc (snd (continue ks r' m1))) = None ->
               tasks (snd (continue ks r' m1)) = tasks m
               /\ (status (svc (snd (continue ks r' m1))) = status (svc m)
                   \/ status (svc (snd (continue ks r' m1))) = down)
               /\ match fst (continue ks r' m1) with
                  | inr ks' => forallb early ks' = true
                  | inl _ => True
                  end).
    { intros r' H.
      destruct (Hres (handle_was_missing ks r' m1 H)) as (Ht & Hs & _).
      destruct (IH r' m1 Hks H) as (Ht' & Hs' & Hf').
      split; [congruence|]. split; [|exact Hf'].
      destruct Hs' as [Hs' | Hs']; [|right; exact Hs'].
      destruct Hs as [Hs | Hs]; [left | right]; congruence. }
    destruct s as [v | e | ks'].
    + apply Hgo.
    + apply Hgo.
    + cbv beta iota delta [ret fst snd]. intros H. destruct (Hres H) as (Ht & Hs & Hf).
      split; [exact Ht|]. split; [exact Hs|].
      rewrite forallb_app, Hf, Hks. reflexivity.
Qed.

Lemma take_task_Forall :
  forall (P : Task -> Prop) (p : nat) (ts : list Task) (t : Task) (rest : list Task),
    take_task p ts = Some (t, rest) -> Forall P ts -> P t /\ Forall P rest.
Proof.
  intros P p ts. induction ts as [|a ts IH]; intros t rest H HP; [discriminate H|].
  cbn [take_task] in H. inversion HP as [|? ? Ha Hts]; subst.
  destruct (Nat.eqb (task_id a) p).
  - inversion H; subst. split; assumption.
  - destruct (take_task p ts) as [[t' rest']|]; [|discriminate H].
    inversion H; subst. destruct (IH t rest' eq_refl Hts) as [Ht Hr].
    split; [exact Ht | constructor; assumption].
Qed.

Lemma take_task_existsb :
  forall (f : Task -> bool) (p : nat) (ts : list Task) (t : Task) (rest : list Task),
    take_task p ts = Some (t, rest) -> existsb f ts = f t || existsb f rest.
Proof.
  intros f p ts. induction ts as [|a ts IH]; intros t rest H; [discriminate H|].
  cbn [take_task] in H. cbn [existsb].
  destruct (Nat.eqb (task_id a) p).
  - inversion H; subst. reflexivity.
  - destruct (take_task p ts) as [[t' rest']|]; [|discriminate H].
    inversion H; subst. rewrite (IH t rest' eq_refl). cbn [existsb].
    destruct (f a), (f t), (existsb f rest'); reflexivity.
Qed.

Lemma continue_create_settled :
  forall (ks : list Frame) (r : Settled) (m : Machine),
    accepts KCreateServer r = true ->
    forallb early ks = true ->
    dropletId (svc (snd (continue (KCreateServer :: ks) r m))) = None ->
    status (svc (snd (continue (KCreateServer :: ks) r m))) = down.
Proof.
  intros ks r m Hacc Hks. cbn [continue]. unfold bind.
  pose proof (resume_create_settled r m Hacc) as Hdown.
  destruct (resume KCreateServer r m) as [s m1]. cbn [snd] in Hdown.
  assert (Hgo : forall r',
             dropletId (svc (snd (continue ks r' m1))) = None ->
             status (svc (snd (continue ks r' m1))) = down).
  { intros r' H.
    destruct (continue_early ks r' m1 Hks H) as (_ & Hs & _).
    destruct Hs as [Hs | Hs]; [|exact Hs].
    rewrite Hs. apply Hdown. exact (handle_was_missing ks r' m1 H). }
  destruct s as [v | e | ks']; [apply Hgo | apply Hgo | exact Hdown].
Qed.

Lemma resume_task_handle_inv :
  forall (p : nat) (t : Task) (rest : list Task) (r : Settled) (m : Machine),
    take_task p (tasks m) = Some (t, rest) ->
    can_resume t r = true ->
    handle_inv m -> handle_inv (snd (resume_task t rest r m)).
Proof.
  intros p t rest r m Htake Hcan Hinv.
  set (m0 := mkMachine (svc m) rest (next_promise m) (next_ssh m) (trace m)).
  assert (Hfinal : exists new,
             svc (snd (resume_task t rest r m)) = svc (snd (continue (frames t) r m0))
             /\ tasks (snd (resume_task t rest r m))
                = (tasks (snd (continue (frames t) r m0)) ++ new)%list
             /\ Forall (fun t' =>
                          match fst (continue (frames t) r m0) with
                          | inr ks => frames t' = ks
                          | inl _ => False
                          end) new).
  { unfold resume_task, bind. cbv beta iota delta [set_tasks]. fold m0.
    destruct (continue (frames t) r m0) as [[[v|e]|ks] m1]; cbn [fst snd].
    - exists []. destruct (awaited t); cbn; rewrite app_nil_r; repeat split; constructor.
    - exists []. destruct (awaited t); cbn; rewrite app_nil_r; repeat split; constructor.
    - eexists. cbn. repeat split. repeat constructor. }
  destruct Hfinal as (new & Hsvc & Htasks & Hnew).
  unfold handle_inv. rewrite Hsvc. intros Hnone.
  assert (Hm : dropletId (svc m) = None)
    by exact (handle_was_missing (frames t) r m0 Hnone).
  destruct (Hinv Hm) as [Hst Hearly].
  destruct (take_task_Forall _ p (tasks m) t rest Htake Hearly) as [Ht Hrest].
  destruct (continue_early (frames t) r m0 Ht Hnone) as (Htk & Hs & Hf).
  cbn [tasks svc m0] in Htk, Hs.
  assert (Hall : Forall (fun t' => forallb early (frames t') = true)
                        (tasks (snd (resume_task t rest r m)))).
  { rewrite Htasks, Htk. apply Forall_app. split; [exact Hrest|].
    eapply Forall_impl; [|exact Hnew]. cbn beta. intros t' Ht'.
    destruct (fst (continue (frames t) r m0)); [contradiction|].
    rewrite Ht'. exact Hf. }
  split; [|exact Hall].
  destruct Hs as [Hs | Hs]; [|left; exact Hs].
  destruct Hst as [Hst | [Hst Hpend]]; [left; congruence|].
  destruct (awaits_creation t) eqn:Hcr.
  - left. unfold awaits_creation, can_resume in Hcr, Hcan.
    destruct (frames t) as [|k ks]; [discriminate Hcr|].
    destruct k; try discriminate Hcr.
    cbn [forallb] in Ht. apply andb_prop in Ht.
    exact (continue_create_settled ks r m0 Hcan (proj2 Ht) Hnone).
  - right. split; [congruence|].
    unfold create_pending in *. rewrite Htasks, Htk, existsb_app.
    rewrite (take_task_existsb _ p _ t rest Htake), Hcr in Hpend.
    cbn [orb] in Hpend. rewrite Hpend. reflexivity.
Qed.

Lemma step_handle_inv :
  forall (i : Input) (m : Machine),
    match i with CallForceStatus _ => False | _ => True end ->
    handle_inv m -> handle_inv (step i m).
Proof.
  intros i m Hi Hinv.
  destruct i as [callback | | newStatus | command ssh logOutput | p r];
    [ | | contradiction | | ].
  - (* createServer *)
    open_machine m. unfold handle_inv, create_pending in *. project.
    cbn [svc tasks status dropletId] in Hinv. exec.
    destruct st; exec; project; intros Hid; destruct (Hinv Hid) as [Hst Hearly];
      try (split; assumption).
    split.
    + right. split; [reflexivity|]. rewrite existsb_app. cbn. apply orb_true_r.
    + apply Forall_app. split; [exact Hearly | repeat constructor].
  - (* stopServer *)
    open_machine m. unfold handle_inv, create_pending in *. project.
    cbn [svc tasks status dropletId] in Hinv. exec.
    destruct st; exec; project; intros Hid; destruct (Hinv Hid) as [Hst Hearly];
      try (split; assumption);
      destruct Hst as [Hst | [Hst _]]; discriminate Hst.
  - (* runSSHCommand *)
    open_machine m. unfold handle_inv, create_pending in *. project.
    cbn [svc tasks status dropletId] in Hinv.
    destruct ssh as [s|]; exec; project; intros Hid;
      destruct (Hinv Hid) as [Hst Hearly];
      (split;
       [ destruct Hst as [Hst | [Hst Hpend]]; [left; exact Hst|];
         right; split; [exact Hst|]; rewrite <- ?app_assoc, existsb_app, Hpend; reflexivity
       | rewrite <- ?app_assoc; apply Forall_app; split;
         [exact Hearly | repeat constructor] ]).
  - (* a promise settles *)
    unfold step, deliver.
    destruct (take_task p (tasks m)) as [[t rest]|] eqn:Htake; [|exact Hinv].
    destruct (can_resume t r) eqn:Hcan; [|exact Hinv].
    exact (resume_task_handle_inv p t rest r m Htake Hcan Hinv).
Qed.

Lemma run_handle_inv :
  forall (inputs : list Input) (m : Machine),
    no_forceStatus inputs = true ->
    handle_inv m -> handle_inv (run inputs m).
Proof.
  induction inputs as [|i inputs IH]; intros m Hno Hinv; [exact Hinv|].
  cbn [no_forceStatus forallb] in Hno. apply andb_prop in Hno.
  destruct Hno as [Hi Hno]. cbn [run]. apply IH; [exact Hno|].
  apply step_handle_inv; [destruct i; try exact I; discriminate Hi | exact Hinv].
Qed.

(** C3, as the code has it.  From the initial state and without
    [forceStatus]: while the status is "up", "stopping" or "weird" a handle
    exists, and while it is "starting" one exists or the create call has not
    returned yet.  The handle is never cleared, whatever is called next, so
    it is still there when the status is back to "down". *)
Theorem handle_exists_while_not_down :
  forall (SSH_PRIVATEKEY : option string) (inputs : list Input),
    no_forceStatus inputs = true ->
    let m := run inputs (boot SSH_PRIVATEKEY) in
    (status (svc m) = up \/ status (svc m) = stopping \/ status (svc m) = weird ->
     report_dropletId (getStatus (svc m)) <> None)
    /\ (status (svc m) = starting ->
        report_dropletId (getStatus (svc m)) <> None \/ create_pending m = true)
    /\ (forall more : list Input,
          report_dropletId (getStatus (svc m)) <> None ->
          report_dropletId (getStatus (svc (run more m))) <> None).
Proof.
  intros key inputs Hno m.
  assert (Hinv : handle_inv m).
  { apply run_handle_inv; [exact Hno|]. intros _. split; [left; reflexivity | constructor]. }
  unfold handle_inv in Hinv. cbn [getStatus report_dropletId].
  split; [|split].
  - intros Hst Hnone. destruct (Hinv Hnone) as [[Hd | [Hs _]] _];
      destruct Hst as [Hst | [Hst | Hst]]; congruence.
  - intros Hst. destruct (dropletId (svc m)) as [id|] eqn:E.
    + left. discriminate.
    + right. destruct (Hinv eq_refl) as [[Hd | [_ Hp]] _]; [congruence | exact Hp].
  - intros more. apply run_keeps_handle.
Qed.

Lemma handle_exists_while_not_down_witness :
  status (svc up_machine) = up
  /\ report_dropletId (getStatus (svc up_machine)) <> None.
Proof.
  split; [reflexivity|].
  apply (proj1 (handle_exists_while_not_down (Some "/root/.ssh/id_rsa")
                  [CallCreateServer (Some (mkCallback 1 None));
                   Settle 0 (Fulfilled (VNumber 42));
                   Settle 1 (Fulfilled (VDroplet (mkDroplet "active" (Some "1.2.3.4"))));
                   Settle 2 (Fulfilled VUndefined)]
                  eq_refl)).
  left. reflexivity.
Defined.

(** C3 as stated fails in three ways.  After a full cycle the service is
    down with the handle of the deleted droplet 42; [forceStatus("up")] on a
    fresh service gives "up" with no handle; and while the first create call
    is awaited the service is "starting" with no handle. *)
Lemma handle_iff_not_down_counterexample :
  (let m := run [CallStopServer;
                 Settle 12 (Fulfilled (VExec (mkResponse "" "" (Some 0%Z))));
                 Settle 12 (Fulfilled VUndefined)] up_machine in
   getStatus (svc m) = mkReport down (Some "1.2.3.4") (Some 42%Z)
   /\ ~ (report_dropletId (getStatus (svc m)) <> None <-> status (svc m) <> down))
  /\ (let m := run [CallForceStatus up] (boot None) in
      getStatus (svc m) = mkReport up None None
      /\ ~ (report_dropletId (getStatus (svc m)) <> None <-> status (svc m) <> down))
  /\ (let m := run [CallCreateServer None] (boot None) in
      getStatus (svc m) = mkReport starting None None
      /\ ~ (report_dropletId (getStatus (svc m)) <> None <-> status (svc m) <> down)).
Proof.
  cbv zeta. split; [|split]; (split; [reflexivity|]); vm_compute; intros [H1 H2].
  - apply H1; [discriminate | reflexivity].
  - apply H2; [discriminate | reflexivity].
  - apply H2; [discriminate | reflexivity].
Qed.

(** ** Every reachable state is well formed *)

Ltac older H :=
  eapply Forall_impl; [|exact H]; cbn beta; intros; lia.

Ltac grows_done H :=
  unfold grows, well_formed; project;
  split; [first [older H | apply Forall_app; split; [older H | repeat constructor; cbn; lia]]
         | lia].

Lemma resume_grows :
  forall (k : Frame) (r : Settled) (m : Machine),
    well_formed m -> grows m (snd (resume k r m)).
Proof.
  intros k r m H. open_machine m. unfold well_formed in H. cbn [tasks next_promise] in H.
  resume_cases k r cb; grows_done H.
Qed.

Lemma continue_grows :
  forall (ks : list Frame) (r : Settled) (m : Machine),
    well_formed m -> grows m (snd (continue ks r m)).
Proof.
  induction ks as [|k ks IH]; intros r m H; [split; [exact H | apply le_n]|].
  cbn [continue]. unfold bind.
  destruct (resume_grows k r m H) as [H1 Hle].
  destruct (resume k r m) as [s m1]. cbn [snd] in H1, Hle.
  destruct s as [v | e | ks'].
  - destruct (IH (Fulfilled v) m1 H1) as [H2 Hle2]. split; [exact H2 | lia].
  - destruct (IH (Rejected e) m1 H1) as [H2 Hle2]. split; [exact H2 | lia].
  - split; [exact H1 | exact Hle].
Qed.

Lemma call_well_formed :
  forall (body : M Step),
    (forall m, well_formed m -> grows m (snd (body m))) ->
    forall m, well_formed m -> well_formed (snd (call body m)).
Proof.
  intros body Hbody m H. unfold call, bind.
  assert (H0 : well_formed (snd (fresh_promise m))).
  { unfold well_formed in *. cbn. older H. }
  assert (Hp : fst (fresh_promise m) < next_promise (snd (fresh_promise m)))
    by (cbn; lia).
  destruct (fresh_promise m) as [p m0]. cbn [fst snd] in H0, Hp.
  destruct (Hbody m0 H0) as [H1 Hle].
  destruct (body m0) as [s m1]. cbn [snd] in H1, Hle.
  destruct s as [v | e | ks]; cbn; try exact H1.
  unfold well_formed in *. cbn. apply Forall_app. split; [exact H1|].
  repeat constructor. cbn. lia.
Qed.

Lemma step_well_formed :
  forall (i : Input) (m : Machine), well_formed m -> well_formed (step i m).
Proof.
  intros i m H. destruct i as [callback | | newStatus | command ssh logOutput | p r];
    unfold step.
  - apply call_well_formed; [|exact H]. clear m H. intros m H.
    open_machine m. unfold well_formed in H. cbn [tasks next_promise] in H.
    exec. destruct st; exec; grows_done H.
  - apply call_well_formed; [|exact H]. clear m H. intros m H.
    open_machine m. unfold well_formed in H. cbn [tasks next_promise] in H.
    exec. destruct st; exec; flatten; grows_done H.
  - open_machine m. exact H.
  - apply call_well_formed; [|exact H]. clear m H. intros m H.
    open_machine m. unfold well_formed in H. cbn [tasks next_promise] in H.
    destruct ssh as [s|]; exec; flatten; grows_done H.
  - unfold deliver.
    destruct (take_task p (tasks m)) as [[t rest]|] eqn:Htake; [|exact H].
    destruct (can_resume t r); [|exact H].
    destruct (take_task_Forall _ p (tasks m) t rest Htake H) as [Ht Hrest].
    unfold resume_task, bind. cbv beta iota delta [set_tasks].
    set (m0 := mkMachine (svc m) rest (next_promise m) (next_ssh m) (trace m)).
    destruct (continue_grows (frames t) r m0 Hrest) as [H1 Hle].
    cbn [next_promise m0] in Hle.
    destruct (continue (frames t) r m0) as [[[v|e]|ks] m1]; cbn [snd] in H1, Hle.
    + destruct (awaited t); exact H1.
    + destruct (awaited t); exact H1.
    + unfold well_formed in *. cbn. apply Forall_app. split; [exact H1|].
      repeat constructor. cbn. lia.
Qed.

(** The hypothesis [well_formed] of the theorems above holds in every state
    the process can reach. *)
Lemma run_well_formed :
  forall (inputs : list Input) (SSH_PRIVATEKEY : option string),
    well_formed (run inputs (boot SSH_PRIVATEKEY)).
Proof.
  intros inputs key.
  assert (H : forall m, well_formed m -> well_formed (run inputs m)).
  { induction inputs as [|i inputs IH]; intros m H; [exact H|].
    cbn [run]. apply IH. apply step_well_formed. exact H. }
  apply H. constructor.
Qed.

(** * Further properties of the service *)

(** ** Provisioning and polling: the other outcomes *)

Lemma first_poll_active_brings_up_witness :
  let m := boot (Some "/root/.ssh/id_rsa") in
  let m' := run [CallCreateServer (Some (mkCallback 1 None));
                 Settle 0 (Fulfilled (VNumber 42));
                 Settle 1 (Fulfilled (VDroplet (mkDroplet "active" (Some "1.2.3.4"))));
                 Settle 2 (Fulfilled VUndefined)] m in
  getStatus (svc m') = mkReport up (Some "1.2.3.4") (Some 42%Z)
  /\ callbacks (events_since m m') = [mkCallback 1 None].
Proof.
  cbv zeta.
  pose proof (first_poll_active_brings_up (boot (Some "/root/.ssh/id_rsa"))
                (mkCallback 1 None) 42 "1.2.3.4"
                (Forall_nil _) eq_refl eq_refl eq_refl) as H.
  cbv zeta in H. destruct H as (Hst & Hcb & _).
  split; [exact Hst | exact Hcb].
Defined.

Lemma not_ready_poll_ends_the_loop_witness :
  let m := boot None in
  let m' := run [CallCreateServer None;
                 Settle 0 (Fulfilled (VNumber 42));
                 Settle 1 (Fulfilled (VDroplet (mkDroplet "new" None)));
                 Settle 2 (Fulfilled VUndefined)] m in
  status (svc m') = starting /\ tasks m' = tasks m.
Proof.
  cbv zeta.
  assert (Hnew : droplet_status (mkDroplet "new" None) <> "active") by discriminate.
  pose proof (not_ready_poll_ends_the_loop (boot None) None 42 (mkDroplet "new" None)
                (Forall_nil _) eq_refl (or_introl Hnew)) as H.
  cbv zeta in H. destruct H as (Hst & _ & Htasks & _).
  split; [exact Hst | exact Htasks].
Defined.

(** X3.  When the SSH connection of the provisioning step is refused, the
    service is "weird" with the handle and the address still recorded; no
    command was sent, the callback was not invoked, nothing is left pending,
    and [stopServer] is accepted from there. *)
Theorem provisioning_failure_goes_weird :
  forall (m : Machine) (callback : option Callback) (id : Z) (address : string)
         (err : Error),
    well_formed m ->
    status (svc m) = down ->
    truthy (Some address) = true ->
    let p := next_promise m in
    let m' := run [CallCreateServer callback;
                   Settle p (Fulfilled (VNumber id));
                   Settle (S p) (Fulfilled (VDroplet (mkDroplet "active" (Some address))));
                   Settle (S (S p)) (Rejected err)] m in
    getStatus (svc m') = mkReport weird (Some address) (Some id)
    /\ callbacks (events_since m m') = []
    /\ executed (events_since m m') = []
    /\ tasks m' = tasks m
    /\ In (ELogger LError err) (events_since m m')
    /\ status (svc (step CallStopServer m')) = stopping.
Proof.
  intros m callback id address err Hwf Hst Haddr p. subst p. unfold run.
  rewrite createServer_accepted by exact Hst.
  open_machine m. unfold well_formed in Hwf. cbn [tasks next_promise] in Hwf.
  unfold events_since. project.
  settle Hwf. settle Hwf.
  cbn [droplet_status ip_address]. rewrite String.eqb_refl, Haddr. exec_methods. flatten.
  settle Hwf. rewrite app_nil_r. project. rewrite skipn_app_length.
  repeat (split; [reflexivity|]). split; [cbn; tauto | reflexivity].
Qed.

Lemma provisioning_failure_goes_weird_witness :
  let m := boot None in
  let m' := run [CallCreateServer None;
                 Settle 0 (Fulfilled (VNumber 42));
                 Settle 1 (Fulfilled (VDroplet (mkDroplet "active" (Some "1.2.3.4"))));
                 Settle 2 (Rejected "Error: config.host must be a valid string")] m in
  getStatus (svc m') = mkReport weird (Some "1.2.3.4") (Some 42%Z)
  /\ tasks m' = tasks m.
Proof.
  cbv zeta.
  pose proof (provisioning_failure_goes_weird (boot None) None 42 "1.2.3.4"
                "Error: config.host must be a valid string"
                (Forall_nil _) eq_refl eq_refl) as H.
  cbv zeta in H. destruct H as (Hst & _ & _ & Htasks & _).
  split; [exact Hst | exact Htasks].
Defined.

(** X4.  A callback that throws is caught by the [try] of [initDroplet]: it was
    invoked once, the nine calls of the loop were made, and the service that
    had just been set to "up" ends "weird". *)
Theorem throwing_callback_goes_weird :
  forall (m : Machine) (callback : Callback) (id : Z) (address : string) (err : Error),
    well_formed m ->
    status (svc m) = down ->
    truthy (Some address) = true ->
    cb_throws callback = Some err ->
    let p := next_promise m in
    let m' := run [CallCreateServer (Some callback);
                   Settle p (Fulfilled (VNumber id));
                   Settle (S p) (Fulfilled (VDroplet (mkDroplet "active" (Some address))));
                   Settle (S (S p)) (Fulfilled VUndefined)] m in
    getStatus (svc m') = mkReport weird (Some address) (Some id)
    /\ callbacks (events_since m m') = [callback]
    /\ length (executed (events_since m m')) = 9
    /\ In (ELogger LLog "Droplet initialized!") (events_since m m')
    /\ In (ELogger LError err) (events_since m m').
Proof.
  intros m callback id address err Hwf Hst Haddr Hcb p. subst p. unfold run.
  rewrite createServer_accepted by exact Hst.
  open_machine m. unfold well_formed in Hwf. cbn [tasks next_promise] in Hwf.
  destruct callback as [n thr]. cbn [cb_throws] in Hcb. subst thr.
  unfold events_since. project.
  settle Hwf. settle Hwf.
  cbn [droplet_status ip_address]. rewrite String.eqb_refl, Haddr. exec_methods. flatten.
  settle Hwf. rewrite for_in_keys_script. exec_methods. flatten.
  project. rewrite skipn_app_length.
  repeat (split; [reflexivity|]). split; cbn; tauto.
Qed.

Lemma throwing_callback_goes_weird_witness :
  let m := boot None in
  let cb := mkCallback 1 (Some "Error: channel not found") in
  let m' := run [CallCreateServer (Some cb);
                 Settle 0 (Fulfilled (VNumber 42));
                 Settle 1 (Fulfilled (VDroplet (mkDroplet "active" (Some "1.2.3.4"))));
                 Settle 2 (Fulfilled VUndefined)] m in
  getStatus (svc m') = mkReport weird (Some "1.2.3.4") (Some 42%Z)
  /\ callbacks (events_since m m') = [cb].
Proof.
  cbv zeta.
  pose proof (throwing_callback_goes_weird (boot None)
                (mkCallback 1 (Some "Error: channel not found")) 42 "1.2.3.4"
                "Error: channel not found"
                (Forall_nil _) eq_refl eq_refl eq_refl) as H.
  cbv zeta in H. destruct H as (Hst & Hcb & _).
  split; [exact Hst | exact Hcb].
Defined.

(** X5.  When the cloud client fails to answer the first poll, the rejection is
    handled by nobody: no timer is armed and nothing is pending, so the
    service stays "starting" with its handle and no address. *)
Theorem poll_failure_ends_the_loop :
  forall (m : Machine) (callback : option Callback) (id : Z) (err : Error),
    well_formed m ->
    status (svc m) = down ->
    let p := next_promise m in
    let m' := run [CallCreateServer callback;
                   Settle p (Fulfilled (VNumber id));
                   Settle (S p) (Rejected err)] m in
    trace m' = (trace m ++
                  [ECreateDroplet;
                   ELogger LLog ("Created droplet with ID " ++ show_number (Some id)
                                   ++ ". Waiting for network...");
                   EGetDroplet (Some id);
                   EFulfilled p VUndefined;
                   EUnhandledRejection err])%list
    /\ status (svc m') = starting
    /\ dropletId (svc m') = Some id
    /\ ipv4 (svc m') = ipv4 (svc m)
    /\ tasks m' = tasks m.
Proof.
  intros m callback id err Hwf Hst p. subst p. unfold run.
  rewrite createServer_accepted by exact Hst.
  open_machine m. unfold well_formed in Hwf. cbn [tasks next_promise] in Hwf.
  project. settle Hwf. settle Hwf. rewrite app_nil_r. project.
  repeat split.
Qed.

Lemma poll_failure_ends_the_loop_witness :
  let m := boot None in
  let m' := run [CallCreateServer None;
                 Settle 0 (Fulfilled (VNumber 42));
                 Settle 1 (Rejected "503 Service Unavailable")] m in
  status (svc m') = starting /\ tasks m' = tasks m.
Proof.
  cbv zeta.
  pose proof (poll_failure_ends_the_loop (boot None) None 42 "503 Service Unavailable"
                (Forall_nil _) eq_refl) as H.
  cbv zeta in H. destruct H as (_ & Hst & _ & _ & Htasks).
  split; [exact Hst | exact Htasks].
Defined.

(** ** Teardown that fails *)

(** Runs the innermost call of [forceStatus] of the goal. *)
Ltac force :=
  match goal with
  | |- context [step (CallForceStatus ?s) (mkMachine ?o ?ts ?np ?ns ?tr)] =>
      let x := eval exec in (step (CallForceStatus s) (mkMachine o ts np ns tr)) in
      change (step (CallForceStatus s) (mkMachine o ts np ns tr)) with x
  end.

(** X6.  A teardown whose deletion fails rejects [stopServer] with the error of
    the cloud client and leaves the service "stopping"; from there both
    [stopServer] and [createServer] are refused, so no operation other than
    [forceStatus] changes the status again. *)
Theorem failed_deletion_leaves_the_service_stopping :
  forall (m : Machine) (result : SSHExecCommandResponse) (err : Error)
         (callback : option Callback),
    well_formed m ->
    status (svc m) = up \/ status (svc m) = weird ->
    let p := next_promise m in
    let m' := run [CallStopServer;
                   Settle p (Fulfilled (VExec result));
                   Settle p (Rejected err)] m in
    settlements p (events_since m m') = [Rejected err]
    /\ status (svc m') = stopping
    /\ dropletId (svc m') = dropletId (svc m)
    /\ step CallStopServer m' =
         mkMachine (svc m') (tasks m') (S (next_promise m')) (next_ssh m')
           (trace m' ++ [ELogger LWarn "Refusing to stop server when status is not 'up'/'weird'.";
                         EFulfilled (next_promise m') VUndefined])
    /\ step (CallCreateServer callback) m' =
         mkMachine (svc m') (tasks m') (S (next_promise m')) (next_ssh m')
           (trace m' ++ [ELogger LWarn "Refusing to create server when status is not 'down'.";
                         EFulfilled (next_promise m') VUndefined]).
Proof.
  intros m result err callback Hwf Hst p. subst p. unfold run.
  rewrite stopServer_accepted by exact Hst.
  open_machine m. unfold well_formed in Hwf. cbn [tasks next_promise] in Hwf.
  unfold events_since. project.
  settle Hwf. settle Hwf. project. rewrite skipn_app_length.
  split; [cbn; rewrite Nat.eqb_refl; reflexivity|].
  split; [reflexivity|]. split; [reflexivity|].
  split; exec; flatten; reflexivity.
Qed.

Lemma failed_deletion_leaves_the_service_stopping_witness :
  let m := up_machine in
  let m' := run [CallStopServer;
                 Settle 12 (Fulfilled (VExec (mkResponse "" "" (Some 0%Z))));
                 Settle 12 (Rejected "404 Not Found")] m in
  status (svc m') = stopping /\ dropletId (svc m') = dropletId (svc m).
Proof.
  cbv zeta.
  pose proof (failed_deletion_leaves_the_service_stopping up_machine
                (mkResponse "" "" (Some 0%Z)) "404 Not Found" None
                up_machine_well_formed (or_introl eq_refl)) as H.
  cbv zeta in H. destruct H as (_ & Hst & Hid & _).
  split; [exact Hst | exact Hid].
Defined.

(** ** forceStatus cancels nothing *)

(** X7.  A status forced while a creation is under way does not stop it: the
    pending poll and the pending connection still run when they are
    answered, and the provisioning step sets the status to "up" over
    whatever was forced. *)
Theorem forced_status_is_overwritten_by_provisioning :
  forall (m : Machine) (id : Z) (address : string) (s1 s2 : ServerStatus),
    well_formed m ->
    status (svc m) = down ->
    truthy (Some address) = true ->
    let p := next_promise m in
    let m' := run [CallCreateServer None;
                   Settle p (Fulfilled (VNumber id));
                   CallForceStatus s1;
                   Settle (S p) (Fulfilled (VDroplet (mkDroplet "active" (Some address))));
                   CallForceStatus s2;
                   Settle (S (S p)) (Fulfilled VUndefined)] m in
    getStatus (svc m') = mkReport up (Some address) (Some id).
Proof.
  intros m id address s1 s2 Hwf Hst Haddr p. subst p. unfold run.
  rewrite createServer_accepted by exact Hst.
  open_machine m. unfold well_formed in Hwf. cbn [tasks next_promise] in Hwf.
  project. settle Hwf. force. settle Hwf.
  cbn [droplet_status ip_address]. rewrite String.eqb_refl, Haddr. exec_methods. flatten.
  force. settle Hwf. rewrite for_in_keys_script. exec_methods. reflexivity.
Qed.

Lemma forced_status_is_overwritten_by_provisioning_witness :
  let m := boot None in
  let m' := run [CallCreateServer None;
                 Settle 0 (Fulfilled (VNumber 42));
                 CallForceStatus down;
                 Settle 1 (Fulfilled (VDroplet (mkDroplet "active" (Some "1.2.3.4"))));
                 CallForceStatus weird;
                 Settle 2 (Fulfilled VUndefined)] m in
  getStatus (svc m') = mkReport up (Some "1.2.3.4") (Some 42%Z) /\ status (svc m) = down.
Proof.
  cbv zeta. split; [|reflexivity].
  apply (forced_status_is_overwritten_by_provisioning (boot None) 42 "1.2.3.4" down weird
           (Forall_nil _) eq_refl eq_refl).
Defined.

(** X8.  The same for a teardown: the status forced while the stop command or
    the deletion is awaited is overwritten by "down" when the deletion
    returns, and the droplet is deleted all the same. *)
Theorem forced_status_is_overwritten_by_teardown :
  forall (m : Machine) (result : SSHExecCommandResponse) (s1 s2 : ServerStatus),
    well_formed m ->
    status (svc m) = up \/ status (svc m) = weird ->
    let p := next_promise m in
    let m' := run [CallStopServer;
                   CallForceStatus s1;
                   Settle p (Fulfilled (VExec result));
                   CallForceStatus s2;
                   Settle p (Fulfilled VUndefined)] m in
    status (svc m') = down
    /\ In (EDeleteDroplet (dropletId (svc m))) (events_since m m').
Proof.
  intros m result s1 s2 Hwf Hst p. subst p. unfold run.
  rewrite stopServer_accepted by exact Hst.
  open_machine m. unfold well_formed in Hwf. cbn [tasks next_promise] in Hwf.
  unfold events_since. project.
  force. settle Hwf. force. settle Hwf. project. rewrite skipn_app_length.
  split; [reflexivity | cbn; tauto].
Qed.

Lemma forced_status_is_overwritten_by_teardown_witness :
  let m := up_machine in
  let m' := run [CallStopServer;
                 CallForceStatus up;
                 Settle 12 (Fulfilled (VExec (mkResponse "" "" (Some 0%Z))));
                 CallForceStatus up;
                 Settle 12 (Fulfilled VUndefined)] m in
  status (svc m') = down /\ status (svc m) = up.
Proof.
  cbv zeta. split; [|reflexivity].
  apply (proj1 (forced_status_is_overwritten_by_teardown up_machine
                  (mkResponse "" "" (Some 0%Z)) up up
                  up_machine_well_formed (or_introl eq_refl))).
Defined.

(** ** The session of the provisioning step *)

(** X9.  The whole provisioning, with all nine calls of the loop answered: each
    answer is written to the console under the index that was sent as its
    command, nothing is left pending, and the session opened by
    [initDroplet] is not disposed, by [initDroplet] or by any of the calls
    that shared it. *)
Theorem provisioning_leaves_its_session_open :
  forall (m : Machine) (callback : option Callback) (id : Z) (address : string)
         (result : nat -> SSHExecCommandResponse),
    well_formed m ->
    status (svc m) = down ->
    truthy (Some address) = true ->
    let p := next_promise m in
    let m' := run ([CallCreateServer callback;
                    Settle p (Fulfilled (VNumber id));
                    Settle (S p) (Fulfilled (VDroplet (mkDroplet "active" (Some address))));
                    Settle (S (S p)) (Fulfilled VUndefined)]
                     ++ map (fun i => Settle (i + S (S (S p))) (Fulfilled (VExec (result i))))
                            (seq 0 9)) m in
    In (ENewSSH (Created (next_ssh m))) (events_since m m')
    /\ (forall ssh : NodeSSH, ~ In (EDispose ssh) (events_since m m'))
    /\ filter is_console (events_since m m')
       = flat_map (fun i => console_output (NilZero.string_of_uint (Nat.to_uint i)) (result i))
                  (seq 0 9)
    /\ tasks m' = tasks m.
Proof.
  intros m callback id address result Hwf Hst Haddr p. subst p.
  cbn [map seq app Nat.add]. unfold run.
  rewrite createServer_accepted by exact Hst.
  open_machine m. unfold well_formed in Hwf. cbn [tasks next_promise] in Hwf.
  unfold events_since. project.
  settle Hwf. settle Hwf.
  cbn [droplet_status ip_address]. rewrite String.eqb_refl, Haddr. exec_methods. flatten.
  settle Hwf. rewrite for_in_keys_script. exec_methods. flatten.
  destruct callback as [[n [e|]]|]; exec_methods; flatten.
  all: do 9 (settle Hwf).
  all: rewrite app_nil_r; project; rewrite skipn_app_length.
  all: split; [cbn; tauto|].
  all: split; [intros ssh H; cbn in H;
               repeat (destruct H as [H|H]; [discriminate H|]); exact H|].
  all: split; reflexivity.
Qed.

Lemma provisioning_leaves_its_session_open_witness :
  let m := boot None in
  let result := fun _ : nat => mkResponse "" "bash: line 1: 0: command not found" (Some 127%Z) in
  let m' := run ([CallCreateServer None;
                  Settle 0 (Fulfilled (VNumber 42));
                  Settle 1 (Fulfilled (VDroplet (mkDroplet "active" (Some "1.2.3.4"))));
                  Settle 2 (Fulfilled VUndefined)]
                   ++ map (fun i => Settle (i + 3) (Fulfilled (VExec (result i)))) (seq 0 9)) m in
  In (ENewSSH (Created 0)) (events_since m m') /\ tasks m' = tasks m.
Proof.
  cbv zeta.
  pose proof (provisioning_leaves_its_session_open (boot None) None 42 "1.2.3.4"
                (fun _ : nat => mkResponse "" "bash: line 1: 0: command not found" (Some 127%Z))
                (Forall_nil _) eq_refl eq_refl) as H.
  cbv zeta in H. destruct H as (Hnew & _ & _ & Htasks).
  split; [exact Hnew | exact Htasks].
Defined.

(** ** What a resumed task leaves behind *)

(** The service after a task was resumed is the one its frames left, and
    the only task added besides theirs is the task itself, suspended again. *)
Lemma resume_task_final :
  forall (t : Task) (rest : list Task) (r : Settled) (m : Machine),
    let m0 := mkMachine (svc m) rest (next_promise m) (next_ssh m) (trace m) in
    exists new,
      svc (snd (resume_task t rest r m)) = svc (snd (continue (frames t) r m0))
      /\ tasks (snd (resume_task t rest r m))
         = (tasks (snd (continue (frames t) r m0)) ++ new)%list
      /\ Forall (fun t' =>
                   match fst (continue (frames t) r m0) with
                   | inr ks => frames t' = ks
                   | inl _ => False
                   end) new.
Proof.
  intros t rest r m m0. unfold resume_task, bind. cbv beta iota delta [set_tasks]. fold m0.
  destruct (continue (frames t) r m0) as [[[v|e]|ks] m1]; cbn [fst snd].
  - exists []. destruct (awaited t); cbn; rewrite app_nil_r; repeat split; constructor.
  - exists []. destruct (awaited t); cbn; rewrite app_nil_r; repeat split; constructor.
  - eexists. cbn. repeat split. repeat constructor.
Qed.

(** ** The address *)

(** All cases of a resumed frame, executed; the tests of [waitForDroplet]
    are kept as equations. *)
Ltac resume_cases_eq k r cb :=
  destruct k as [ | | ? | ? ? [|] [|] | | | ? | ];
  destruct r as [[| ? | ?d | ?] | ?]; exec;
  try (rewrite for_in_keys_script; exec; destruct cb as [[? [?|]]|]; exec);
  try match goal with
      | |- context [droplet_status ?d =? "active"] =>
          let Ea := fresh "Hactive" in
          let Et := fresh "Htruthy" in
          destruct (droplet_status d =? "active") eqn:Ea; exec;
          [destruct (truthy (ip_address d)) eqn:Et; exec|]
      end;
  flatten; project.

Lemma truthy_is_some :
  forall a : option string, truthy a = true -> a <> None.
Proof. intros [a|] H; [discriminate | discriminate H]. Qed.

Lemma resume_keeps_address :
  forall (k : Frame) (r : Settled) (m : Machine),
    ipv4 (svc m) <> None -> ipv4 (svc (snd (resume k r m))) <> None.
Proof.
  intros k r m H. open_machine m. cbn in H.
  resume_cases_eq k r cb; try exact H.
  apply truthy_is_some. assumption.
Qed.

Lemma continue_keeps_address :
  forall (ks : list Frame) (r : Settled) (m : Machine),
    ipv4 (svc m) <> None -> ipv4 (svc (snd (continue ks r m))) <> None.
Proof.
  induction ks as [|k ks IH]; intros r m H; [exact H|].
  cbn [continue]. unfold bind.
  pose proof (resume_keeps_address k r m H) as H1.
  destruct (resume k r m) as [s m1]. cbn [snd] in H1.
  destruct s; [apply IH; exact H1 | apply IH; exact H1 | exact H1].
Qed.

Lemma step_keeps_address :
  forall (i : Input) (m : Machine),
    ipv4 (svc m) <> None -> ipv4 (svc (step i m)) <> None.
Proof.
  intros i m H.
  destruct i as [callback | | newStatus | command ssh logOutput | p r].
  - open_machine m. cbn in H. exec. destruct st; exec; exact H.
  - open_machine m. cbn in H. exec. destruct st; exec; exact H.
  - open_machine m. exact H.
  - open_machine m. cbn in H. destruct ssh; exec; exact H.
  - unfold step, deliver. destruct (take_task p (tasks m)) as [[t rest]|]; [|exact H].
    destruct (can_resume t r); [|exact H].
    destruct (resume_task_final t rest r m) as (new & Hsvc & _). rewrite Hsvc.
    apply continue_keeps_address. exact H.
Qed.

Lemma run_keeps_address :
  forall (inputs : list Input) (m : Machine),
    ipv4 (svc m) <> None -> ipv4 (svc (run inputs m)) <> None.
Proof.
  induction inputs as [|i inputs IH]; intros m H; [exact H|].
  cbn [run]. apply IH. apply step_keeps_address. exact H.
Qed.

(** An early frame records no address. *)
Lemma resume_early_address :
  forall (k : Frame) (r : Settled) (m : Machine),
    early k = true -> ipv4 (svc (snd (resume k r m))) = ipv4 (svc m).
Proof.
  intros k r m Hk. open_machine m. revert Hk.
  destruct k as [ | | ? | ? ? [|] [|] | | | ? | ]; cbn [early]; intros Hk;
    try discriminate Hk;
    destruct r as [[| ? | ? | ?] | ?]; reflexivity.
Qed.

Lemma continue_early_address :
  forall (ks : list Frame) (r : Settled) (m : Machine),
    forallb early ks = true -> ipv4 (svc (snd (continue ks r m))) = ipv4 (svc m).
Proof.
  induction ks as [|k ks IH]; intros r m Hks; [reflexivity|].
  cbn [forallb] in Hks. apply andb_prop in Hks. destruct Hks as [Hk Hks].
  cbn [continue]. unfold bind.
  pose proof (resume_early_address k r m Hk) as H1.
  destruct (resume k r m) as [s m1]. cbn [snd] in H1.
  destruct s as [v | e | ks'];
    [rewrite IH by exact Hks | rewrite IH by exact Hks | ]; exact H1.
Qed.

Lemma step_address_inv :
  forall (i : Input) (m : Machine), address_inv m -> address_inv (step i m).
Proof.
  intros i m Hinv.
  destruct i as [callback | | newStatus | command ssh logOutput | p r].
  - open_machine m. unfold address_inv in *. cbn [svc tasks ipv4 dropletId] in Hinv.
    exec. destruct st; exec; project; intros Hid; destruct (Hinv Hid) as [Hip Hearly];
      (split; [exact Hip|]); try exact Hearly.
    apply Forall_app. split; [exact Hearly | repeat constructor].
  - open_machine m. unfold address_inv in *. cbn [svc tasks ipv4 dropletId] in Hinv.
    exec. destruct st; exec; flatten; project; intros Hid;
      destruct (Hinv Hid) as [Hip Hearly];
      (split; [exact Hip|]); try exact Hearly;
      apply Forall_app; (split; [exact Hearly | repeat constructor]).
  - open_machine m. exact Hinv.
  - open_machine m. unfold address_inv in *. cbn [svc tasks ipv4 dropletId] in Hinv.
    destruct ssh as [s|]; exec; flatten; project; intros Hid;
      destruct (Hinv Hid) as [Hip Hearly];
      (split; [exact Hip|]);
      apply Forall_app; (split; [exact Hearly | repeat constructor]).
  - unfold step, deliver.
    destruct (take_task p (tasks m)) as [[t rest]|] eqn:Htake; [|exact Hinv].
    destruct (can_resume t r) eqn:Hcan; [|exact Hinv].
    destruct (resume_task_final t rest r m) as (new & Hsvc & Htasks & Hnew).
    cbv zeta in Hsvc, Htasks, Hnew.
    set (m0 := mkMachine (svc m) rest (next_promise m) (next_ssh m) (trace m)) in *.
    unfold address_inv. rewrite Hsvc, Htasks. intros Hnone.
    assert (Hm : dropletId (svc m) = None)
      by exact (handle_was_missing (frames t) r m0 Hnone).
    destruct (Hinv Hm) as [Hip Hearly].
    destruct (take_task_Forall _ p (tasks m) t rest Htake Hearly) as [Ht Hrest].
    destruct (continue_early (frames t) r m0 Ht Hnone) as (Htk & _ & Hf).
    split.
    + rewrite (continue_early_address (frames t) r m0 Ht). exact Hip.
    + rewrite Htk. apply Forall_app. split; [exact Hrest|].
      eapply Forall_impl; [|exact Hnew]. cbn beta. intros t' Ht'.
      destruct (fst (continue (frames t) r m0)); [contradiction|].
      rewrite Ht'. exact Hf.
Qed.

Lemma run_address_inv :
  forall (inputs : list Input) (m : Machine), address_inv m -> address_inv (run inputs m).
Proof.
  induction inputs as [|i inputs IH]; intros m H; [exact H|].
  cbn [run]. apply IH. apply step_address_inv. exact H.
Qed.

(** X10.  Whatever is called, [forceStatus] included, and however the pending
    promises settle: an address is recorded only when a handle is, and
    neither is cleared again by anything that follows. *)
Theorem address_only_with_a_handle :
  forall (SSH_PRIVATEKEY : option string) (inputs : list Input),
    let m := run inputs (boot SSH_PRIVATEKEY) in
    (report_ipv4 (getStatus (svc m)) <> None ->
     report_dropletId (getStatus (svc m)) <> None)
    /\ (forall more : list Input,
          report_ipv4 (getStatus (svc m)) <> None ->
          report_ipv4 (getStatus (svc (run more m))) <> None
          /\ report_dropletId (getStatus (svc (run more m))) <> None).
Proof.
  intros key inputs m.
  assert (Hinv : forall l, address_inv (run l (boot key))).
  { intros l. apply run_address_inv. intros _. split; [reflexivity | constructor]. }
  assert (Himp : forall l, ipv4 (svc (run l (boot key))) <> None ->
                           dropletId (svc (run l (boot key))) <> None).
  { intros l Hip Hnone. apply Hip. exact (proj1 (Hinv l Hnone)). }
  cbn [getStatus report_ipv4 report_dropletId]. split.
  - apply Himp.
  - intros more Hip. subst m. rewrite <- run_app.
    assert (Hip' : ipv4 (svc (run (inputs ++ more) (boot key))) <> None)
      by (rewrite run_app; apply run_keeps_address; exact Hip).
    split; [exact Hip' | apply Himp; exact Hip'].
Qed.

(** ** Sessions supplied by a caller *)

Ltac respected_done H :=
  destruct H as [Htasks Htrace]; cbn [tasks trace] in Htasks, Htrace;
  split;
  [ first [exact Htasks
          | apply Forall_app; split; [exact Htasks | repeat constructor]]
  | first [exact Htrace
          | rewrite forallb_app, Htrace; reflexivity] ].

Lemma resume_sessions_respected :
  forall (k : Frame) (r : Settled) (m : Machine),
    will_spare_supplied k = true ->
    sessions_respected m ->
    sessions_respected (snd (resume k r m))
    /\ match fst (resume k r m) with
       | Await ks => forallb will_spare_supplied ks = true
       | _ => True
       end.
Proof.
  intros k r m Hk H. open_machine m. unfold sessions_respected in *.
  destruct k as [ | | [n|n] | command [n|n] [|] [|] | | | ms | ];
    try discriminate Hk;
    destruct r as [[| ? | d | res] | e]; exec;
    try (split; [flatten; project; respected_done H | exact I]).
  (* initDroplet once connected *)
  all: try (rewrite for_in_keys_script; exec;
            destruct cb as [[? [?|]]|]; exec;
            (split; [flatten; project; respected_done H | exact I])).
  (* waitForDroplet *)
  all: try (destruct (droplet_status d =? "active"); exec;
            [destruct (truthy (ip_address d)); exec|];
            (split; [flatten; project; respected_done H | exact I])).
  (* stopServer between its awaits *)
  all: split; [flatten; project; respected_done H | reflexivity].
Qed.

Lemma continue_sessions_respected :
  forall (ks : list Frame) (r : Settled) (m : Machine),
    forallb will_spare_supplied ks = true ->
    sessions_respected m ->
    sessions_respected (snd (continue ks r m))
    /\ match fst (continue ks r m) with
       | inr ks' => forallb will_spare_supplied ks' = true
       | inl _ => True
       end.
Proof.
  induction ks as [|k ks IH]; intros r m Hks H; [split; [exact H | exact I]|].
  cbn [forallb] in Hks. apply andb_prop in Hks. destruct Hks as [Hk Hks].
  cbn [continue]. unfold bind.
  destruct (resume_sessions_respected k r m Hk H) as [H1 Hf].
  destruct (resume k r m) as [s m1]. cbn [fst snd] in H1, Hf.
  destruct s as [v | e | ks'].
  - apply IH; assumption.
  - apply IH; assumption.
  - cbv beta iota delta [ret fst snd]. split; [exact H1|].
    rewrite forallb_app, Hf, Hks. reflexivity.
Qed.

Lemma call_sessions_respected :
  forall (body : M Step),
    (forall m, sessions_respected m ->
               sessions_respected (snd (body m))
               /\ match fst (body m) with
                  | Await ks => forallb will_spare_supplied ks = true
                  | _ => True
                  end) ->
    forall m, sessions_respected m -> sessions_respected (snd (call body m)).
Proof.
  intros body Hbody m H. unfold call, bind.
  assert (H0 : sessions_respected (snd (fresh_promise m))) by exact H.
  destruct (fresh_promise m) as [p m0]. cbn [snd] in H0.
  destruct (Hbody m0 H0) as [H1 Hf].
  destruct (body m0) as [s m1]. cbn [fst snd] in H1, Hf.
  destruct H1 as [Htasks Htrace].
  destruct s as [v | e | ks]; cbn; (split; [|cbn; try rewrite forallb_app, Htrace; try reflexivity; exact Htrace]);
    try exact Htasks.
  apply Forall_app. split; [exact Htasks | repeat constructor; exact Hf].
Qed.

Lemma step_sessions_respected :
  forall (i : Input) (m : Machine),
    sessions_respected m -> sessions_respected (step i m).
Proof.
  intros i m H. destruct i as [callback | | newStatus | command ssh logOutput | p r];
    unfold step.
  - apply call_sessions_respected; [|exact H]. clear m H. intros m H.
    open_machine m. unfold sessions_respected in *. exec.
    destruct st; exec; (split; [flatten; project; respected_done H | try exact I; reflexivity]).
  - apply call_sessions_respected; [|exact H]. clear m H. intros m H.
    open_machine m. unfold sessions_respected in *. exec.
    destruct st; exec; (split; [flatten; project; respected_done H | try exact I; reflexivity]).
  - open_machine m. unfold sessions_respected in *. exec. respected_done H.
  - apply call_sessions_respected; [|exact H]. clear m H. intros m H.
    open_machine m. unfold sessions_respected in *.
    destruct ssh as [[n|n]|]; exec;
      (split; [flatten; project; respected_done H | reflexivity]).
  - unfold deliver.
    destruct (take_task p (tasks m)) as [[t rest]|] eqn:Htake; [|exact H].
    destruct (can_resume t r); [|exact H].
    destruct H as [Htasks Htrace].
    destruct (take_task_Forall _ p (tasks m) t rest Htake Htasks) as [Ht Hrest].
    unfold resume_task, bind. cbv beta iota delta [set_tasks].
    set (m0 := mkMachine (svc m) rest (next_promise m) (next_ssh m) (trace m)).
    destruct (continue_sessions_respected (frames t) r m0 Ht (conj Hrest Htrace))
      as [[H1 H1'] Hf].
    destruct (continue (frames t) r m0) as [[[v|e]|ks] m1]; cbn [fst snd] in H1, H1', Hf.
    + destruct (awaited t); cbn; (split; [exact H1|]);
        cbn; try rewrite forallb_app, H1'; try reflexivity; exact H1'.
    + destruct (awaited t); cbn; (split; [exact H1|]);
        cbn; try rewrite forallb_app, H1'; try reflexivity; exact H1'.
    + cbn. split; [|exact H1'].
      apply Forall_app. split; [exact H1 | repeat constructor; exact Hf].
Qed.

(** X11.  Whatever is called and however the calls interleave, no session that a
    caller handed to [runSSHCommand] is ever disposed by the service. *)
Theorem supplied_sessions_are_never_disposed :
  forall (SSH_PRIVATEKEY : option string) (inputs : list Input),
    let m := run inputs (boot SSH_PRIVATEKEY) in
    forallb spares_supplied (trace m) = true
    /\ (forall n : nat, ~ In (EDispose (Supplied n)) (trace m)).
Proof.
  intros key inputs m. subst m.
  assert (H : forall m, sessions_respected m -> sessions_respected (run inputs m)).
  { induction inputs as [|i inputs IH]; intros m H; [exact H|].
    cbn [run]. apply IH. apply step_sessions_respected. exact H. }
  destruct (H (boot key)) as [_ Htrace]; [split; [constructor | reflexivity]|].
  split; [exact Htrace|].
  intros n Hin. rewrite forallb_forall in Htrace.
  specialize (Htrace _ Hin). discriminate Htrace.
Qed.

(** ** One lifecycle operation at a time *)










(** ** Forcing the status during a creation *)

(** Runs the innermost call of [createServer] of the goal. *)
Ltac create :=
  match goal with
  | |- context [step (CallCreateServer ?c) (mkMachine ?o ?ts ?np ?ns ?tr)] =>
      let x := eval exec in (step (CallCreateServer c) (mkMachine o ts np ns tr)) in
      change (step (CallCreateServer c) (mkMachine o ts np ns tr)) with x
  end.

(** X13.  The guard of [createServer] reads nothing but the status.  When the
    status is forced back to "down" while a creation is awaited, a second
    [createServer] is accepted: two droplets are created, the handle of the
    first is overwritten by the handle of the second, the callback of the
    first call is replaced, and two polls are pending at once. *)
Theorem forced_down_allows_a_second_creation :
  forall (m : Machine) (callback1 callback2 : option Callback) (id1 id2 : Z),
    well_formed m ->
    status (svc m) = down ->
    let p := next_promise m in
    let m' := run [CallCreateServer callback1;
                   CallForceStatus down;
                   CallCreateServer callback2;
                   Settle p (Fulfilled (VNumber id1));
                   Settle (S p) (Fulfilled (VNumber id2))] m in
    events_since m m'
    = [ECreateDroplet;
       ELogger LWarn "Forcing status to be down";
       ECreateDroplet;
       ELogger LLog ("Created droplet with ID " ++ show_number (Some id1)
                       ++ ". Waiting for network...");
       EGetDroplet (Some id1);
       EFulfilled p VUndefined;
       ELogger LLog ("Created droplet with ID " ++ show_number (Some id2)
                       ++ ". Waiting for network...");
       EGetDroplet (Some id2);
       EFulfilled (S p) VUndefined]
    /\ getStatus (svc m') = mkReport starting (ipv4 (svc m)) (Some id2)
    /\ creationCallback (svc m') = callback2
    /\ tasks m' = (tasks m ++ [mkTask (S (S p)) [KWaitForDroplet] false;
                               mkTask (S (S (S p))) [KWaitForDroplet] false])%list
    /\ length (in_flight m') = length (in_flight m) + 2.
Proof.
  intros m cb1 cb2 id1 id2 Hwf Hst p. subst p. unfold run.
  rewrite (createServer_accepted m cb1 Hst).
  open_machine m. unfold well_formed in Hwf. cbn [tasks next_promise] in Hwf.
  unfold events_since, in_flight. project. force. create. flatten.
  settle Hwf. settle Hwf. project. rewrite skipn_app_length.
  repeat split. rewrite filter_app, length_app. reflexivity.
Qed.

Lemma forced_down_allows_a_second_creation_witness :
  let m := boot None in
  let m' := run [CallCreateServer None;
                 CallForceStatus down;
                 CallCreateServer None;
                 Settle 0 (Fulfilled (VNumber 41));
                 Settle 1 (Fulfilled (VNumber 42))] m in
  (getStatus (svc m') = mkReport starting None (Some 42%Z)
   /\ length (in_flight m') = 2)
  /\ status (svc m) = down.
Proof.
  cbv zeta. split; [|reflexivity].
  pose proof (forced_down_allows_a_second_creation (boot None) None None 41 42
                (Forall_nil _) eq_refl) as H.
  cbv zeta in H. destruct H as [_ [H1 [_ [_ H2]]]].
  split; [exact H1 | exact H2].
Defined.

(** * The chat bot *)

(** ** Stripping mentions and trimming *)

Lemma mention_needs_lt :
  forall (c : N) (s : js_string), N.eqb c 60 = false -> mention_length (c :: s) = None.
Proof.
  intros c s H. unfold mention_length.
  destruct s as [|c2 [|c3 [|d t]]]; try reflexivity. rewrite H. reflexivity.
Qed.

Lemma strip_from_app_no_lt :
  forall (a b : js_string),
    no_lt a = true -> strip_from 0 (a ++ b)%list = (a ++ strip_from 0 b)%list.
Proof.
  induction a as [|c a IH]; intros b H; [reflexivity|].
  cbn [no_lt forallb] in H. apply andb_prop in H. destruct H as [Hc Ha].
  apply negb_true_iff in Hc.
  change ((c :: a) ++ b)%list with (c :: (a ++ b))%list.
  cbn [strip_from]. rewrite (mention_needs_lt c (a ++ b)%list Hc).
  rewrite (IH b Ha). reflexivity.
Qed.

Lemma strip_no_lt :
  forall a : js_string, no_lt a = true -> strip_mentions a = a.
Proof.
  intros a H. unfold strip_mentions.
  rewrite <- (app_nil_r a) at 1. rewrite (strip_from_app_no_lt a [] H).
  cbn. apply app_nil_r.
Qed.

Lemma strip_from_skip :
  forall (a b : js_string), strip_from (length a) (a ++ b)%list = strip_from 0 b.
Proof.
  induction a as [|c a IH]; intros b.
  - destruct b; reflexivity.
  - cbn [length app strip_from]. apply IH.
Qed.

Lemma digits_then_close_spec :
  forall (ds post : js_string),
    forallb is_digit ds = true ->
    digits_then_close (ds ++ 62%N :: post)%list = Some (S (length ds)).
Proof.
  induction ds as [|d ds IH]; intros post H.
  - reflexivity.
  - cbn [forallb] in H. apply andb_prop in H. destruct H as [Hd Hds].
    cbn [app digits_then_close length]. rewrite Hd, (IH post Hds). reflexivity.
Qed.

(** A nickname mention at the head is dropped whole. *)
Lemma strip_nickname_mention :
  forall (ds post : js_string),
    ds <> [] -> forallb is_digit ds = true ->
    strip_from 0 (nickname_mention ds ++ post)%list = strip_from 0 post.
Proof.
  intros ds post Hne Hds. destruct ds as [|d ds]; [contradiction|].
  cbn [forallb] in Hds. apply andb_prop in Hds. destruct Hds as [Hd Hds].
  unfold nickname_mention.
  change (lit "<@!") with [60%N; 64%N; 33%N]. change (lit ">") with [62%N].
  cbn [app]. cbn [strip_from mention_length].
  rewrite <- app_assoc. cbn [app].
  rewrite Hd. cbn [N.eqb Pos.eqb andb].
  rewrite (digits_then_close_spec ds post Hds). cbn [option_map Nat.add Nat.pred].
  replace (S (length ds)) with (length (ds ++ [62%N])%list)
    by (rewrite length_app; cbn; lia).
  replace (ds ++ 62%N :: post)%list with ((ds ++ [62%N]) ++ post)%list
    by (rewrite <- app_assoc; reflexivity).
  apply strip_from_skip.
Qed.

Lemma white_is_no_lt : forall c : N, is_white c = true -> N.eqb c 60 = false.
Proof.
  intros c H. destruct (N.eqb_spec c 60) as [E|E]; [|reflexivity].
  subst c. discriminate H.
Qed.

Lemma whites_no_lt :
  forall w : js_string, forallb is_white w = true -> no_lt w = true.
Proof.
  induction w as [|c w IH]; intros H; [reflexivity|].
  cbn [forallb] in H. apply andb_prop in H. destruct H as [Hc Hw].
  cbn [no_lt forallb]. rewrite (white_is_no_lt c Hc). exact (IH Hw).
Qed.

Lemma no_lt_app :
  forall a b : js_string, no_lt a = true -> no_lt b = true -> no_lt (a ++ b)%list = true.
Proof. intros a b Ha Hb. unfold no_lt in *. rewrite forallb_app, Ha, Hb. reflexivity. Qed.

Lemma trim_start_whites :
  forall (w s : js_string), forallb is_white w = true -> trim_start (w ++ s)%list = trim_start s.
Proof.
  induction w as [|c w IH]; intros s H; [reflexivity|].
  cbn [forallb] in H. apply andb_prop in H. destruct H as [Hc Hw].
  cbn [app trim_start]. rewrite Hc. exact (IH s Hw).
Qed.

Lemma forallb_rev :
  forall (A : Type) (f : A -> bool) (l : list A), forallb f (rev l) = forallb f l.
Proof.
  intros A f l. induction l as [|a l IH]; [reflexivity|].
  cbn [rev forallb]. rewrite forallb_app, IH. cbn. rewrite andb_true_r. apply andb_comm.
Qed.

(** Trimming a word that starts and ends with no white space, padded with
    white space, gives the word back. *)
Lemma trim_padded :
  forall (w1 w2 word : js_string) (first last : N) (middle : js_string),
    forallb is_white w1 = true -> forallb is_white w2 = true ->
    word = (first :: middle ++ [last])%list ->
    is_white first = false -> is_white last = false ->
    trim (w1 ++ word ++ w2)%list = word.
Proof.
  intros w1 w2 word first last middle H1 H2 Hword Hf Hl. unfold trim.
  rewrite (trim_start_whites w1 _ H1). subst word.
  cbn [app trim_start]. rewrite Hf.
  change (first :: (middle ++ [last]) ++ w2)%list
    with ((first :: middle ++ [last]) ++ w2)%list.
  rewrite rev_app_distr.
  rewrite trim_start_whites by (rewrite forallb_rev; exact H2).
  change (first :: middle ++ [last])%list with ((first :: middle) ++ [last])%list.
  rewrite rev_app_distr. cbn [rev app trim_start]. rewrite Hl.
  change (last :: rev middle ++ [first])%list with ([last] ++ rev (first :: middle))%list.
  rewrite rev_app_distr, rev_involutive. reflexivity.
Qed.

Lemma js_eqb_refl : forall a : js_string, js_eqb a a = true.
Proof. intros a. unfold js_eqb. destruct (list_eq_dec N.eq_dec a a); [reflexivity | contradiction]. Qed.

Lemma js_eqb_neq : forall a b : js_string, a <> b -> js_eqb a b = false.
Proof. intros a b H. unfold js_eqb. destruct (list_eq_dec N.eq_dec a b); [contradiction | reflexivity]. Qed.

(** ** The handler *)

(** X14.  A message in another channel, or one that does not mention the bot,
    gets no reply: the handler only writes a debug line.  This includes
    every message when no channel is configured. *)
Theorem messageHandler_ignores_unaddressed :
  forall (bot : DiscordBotService) (message : Message),
    ~ addressed bot message ->
    replies (messageHandler bot message) = []
    /\ exists why, messageHandler bot message = [BDebug why].
Proof.
  intros bot message H. unfold messageHandler, addressed, other_channel in *.
  destruct (channelId bot) as [c|].
  - destruct (String.eqb_spec (channel_id message) c) as [E|E]; cbn [negb].
    + destruct (mentions_has message (client_user_id bot)); cbn [negb].
      * exfalso. apply H. subst c. split; reflexivity.
      * split; [reflexivity | eexists; reflexivity].
    + split; [reflexivity | eexists; reflexivity].
  - split; [reflexivity | eexists; reflexivity].
Qed.

Lemma messageHandler_ignores_unaddressed_witness :
  replies (messageHandler (mkBot (Some "minecraft") "1001")
             (mkMessage "general" (fun _ => true) (lit "<@!1001> ping"))) = []
  /\ replies (messageHandler (mkBot None "1001")
                (mkMessage "minecraft" (fun _ => true) (lit "<@!1001> ping"))) = [].
Proof.
  split.
  - apply (messageHandler_ignores_unaddressed (mkBot (Some "minecraft") "1001")
             (mkMessage "general" (fun _ => true) (lit "<@!1001> ping"))).
    intros [H _]. discriminate H.
  - apply (messageHandler_ignores_unaddressed (mkBot None "1001")
             (mkMessage "minecraft" (fun _ => true) (lit "<@!1001> ping"))).
    intros [H _]. discriminate H.
Defined.

(** X15.  A message in the configured channel that mentions the bot gets exactly
    one reply, whatever its text, and the reply goes to the channel the
    message came from. *)
Theorem messageHandler_replies_once :
  forall (bot : DiscordBotService) (message : Message),
    addressed bot message ->
    exists text, replies (messageHandler bot message) = [(channel_id message, text)].
Proof.
  intros bot message [Hc Hm]. unfold messageHandler, other_channel.
  rewrite Hc, Hm, String.eqb_refl. cbn [negb]. cbv zeta.
  destruct (js_eqb _ (lit (BotCommand_value PING))); [eexists; reflexivity|].
  destruct (js_eqb _ (lit (BotCommand_value HELP))); eexists; reflexivity.
Qed.

Lemma messageHandler_replies_once_witness :
  exists text,
    replies (messageHandler (mkBot (Some "minecraft") "1001")
               (mkMessage "minecraft" (fun _ => true) (lit "<@!1001> start")))
    = [("minecraft", text)].
Proof.
  apply (messageHandler_replies_once (mkBot (Some "minecraft") "1001")
           (mkMessage "minecraft" (fun _ => true) (lit "<@!1001> start"))).
  split; reflexivity.
Defined.

(** X16.  A nickname mention [<@!digits>] that follows text without [<] is
    invisible to the handler: the message is answered as the same message
    without the mention. *)
Theorem nickname_mention_is_ignored :
  forall (bot : DiscordBotService) (message : Message) (before digits after : js_string),
    digits <> [] ->
    forallb is_digit digits = true ->
    no_lt before = true ->
    content message = (before ++ nickname_mention digits ++ after)%list ->
    messageHandler bot message
    = messageHandler bot (mkMessage (channel_id message) (mentions_has message)
                                    (before ++ after)%list).
Proof.
  intros bot message before digits after Hne Hds Hb Hcontent.
  unfold messageHandler. cbn [channel_id mentions_has content]. rewrite Hcontent.
  unfold strip_mentions.
  rewrite (strip_from_app_no_lt before _ Hb), (strip_from_app_no_lt before after Hb).
  rewrite (strip_nickname_mention digits after Hne Hds). reflexivity.
Qed.

Lemma nickname_mention_is_ignored_witness :
  messageHandler (mkBot (Some "minecraft") "1001")
    (mkMessage "minecraft" (fun _ => true) (lit "help " ++ nickname_mention (lit "1001") ++ lit " ")%list)
  = messageHandler (mkBot (Some "minecraft") "1001")
      (mkMessage "minecraft" (fun _ => true) (lit "help " ++ lit " ")%list).
Proof.
  apply (nickname_mention_is_ignored (mkBot (Some "minecraft") "1001")
           (mkMessage "minecraft" (fun _ => true)
              (lit "help " ++ nickname_mention (lit "1001") ++ lit " ")%list)
           (lit "help ") (lit "1001") (lit " ")).
  - discriminate.
  - reflexivity.
  - reflexivity.
  - reflexivity.
Defined.

(** The answer to a command.  *)
Lemma command_is_recognised :
  forall (bot : DiscordBotService) (message : Message) (c : BotCommand),
    addressed bot message ->
    trim (strip_mentions (content message)) = lit (BotCommand_value c) ->
    messageHandler bot message
    = [BSend (channel_id message)
             match c with PING => lit "Pong!" | HELP => help_text end].
Proof.
  intros bot message c [Hc Hm] Hcmd. unfold messageHandler, other_channel.
  rewrite Hc, Hm, String.eqb_refl. cbn [negb]. cbv zeta. rewrite Hcmd.
  destruct c; reflexivity.
Qed.

(** X17.  A message made of a nickname mention and a command, in that order and
    with any white space before, between and after them, is answered with
    the reply of that command: "Pong!" for [ping], the help text for
    [help]. *)
Theorem mention_then_command :
  forall (bot : DiscordBotService) (message : Message) (c : BotCommand)
         (digits w0 w1 w2 : js_string),
    addressed bot message ->
    digits <> [] ->
    forallb is_digit digits = true ->
    forallb is_white w0 = true ->
    forallb is_white w1 = true ->
    forallb is_white w2 = true ->
    content message
    = (w0 ++ nickname_mention digits ++ w1 ++ lit (BotCommand_value c) ++ w2)%list ->
    messageHandler bot message
    = [BSend (channel_id message)
             match c with PING => lit "Pong!" | HELP => help_text end].
Proof.
  intros bot message c digits w0 w1 w2 Haddr Hne Hds H0 H1 H2 Hcontent.
  apply command_is_recognised; [exact Haddr|].
  rewrite Hcontent. unfold strip_mentions.
  rewrite (strip_from_app_no_lt w0 _ (whites_no_lt w0 H0)).
  rewrite (strip_nickname_mention digits _ Hne Hds).
  assert (Hrest : no_lt (w1 ++ lit (BotCommand_value c) ++ w2)%list = true).
  { apply no_lt_app; [exact (whites_no_lt w1 H1)|].
    apply no_lt_app; [destruct c; reflexivity | exact (whites_no_lt w2 H2)]. }
  fold (strip_mentions (w1 ++ lit (BotCommand_value c) ++ w2)%list).
  rewrite (strip_no_lt _ Hrest).
  rewrite app_assoc.
  destruct c.
  - apply (trim_padded (w0 ++ w1)%list w2 (lit "ping") 112%N 103%N (lit "in"));
      [rewrite forallb_app, H0, H1; reflexivity | exact H2 | reflexivity..].
  - apply (trim_padded (w0 ++ w1)%list w2 (lit "help") 104%N 112%N (lit "el"));
      [rewrite forallb_app, H0, H1; reflexivity | exact H2 | reflexivity..].
Qed.

Lemma mention_then_command_witness :
  messageHandler (mkBot (Some "minecraft") "1001")
    (mkMessage "minecraft" (fun _ => true)
       (lit " " ++ nickname_mention (lit "1001") ++ [32; 160]%N
          ++ lit (BotCommand_value PING) ++ [10]%N)%list)
  = [BSend "minecraft" (lit "Pong!")].
Proof.
  apply (mention_then_command (mkBot (Some "minecraft") "1001")
           (mkMessage "minecraft" (fun _ => true)
              (lit " " ++ nickname_mention (lit "1001") ++ [32; 160]%N
                 ++ lit (BotCommand_value PING) ++ [10]%N)%list)
           PING (lit "1001") (lit " ") [32; 160]%N [10]%N).
  - split; reflexivity.
  - discriminate.
  - reflexivity.
  - reflexivity.
  - reflexivity.
  - reflexivity.
  - reflexivity.
Defined.

Lemma unknown_command :
  forall (bot : DiscordBotService) (message : Message) (cmd : js_string),
    addressed bot message ->
    trim (strip_mentions (content message)) = cmd ->
    cmd <> lit (BotCommand_value PING) ->
    cmd <> lit (BotCommand_value HELP) ->
    messageHandler bot message
    = [BLog (lit "Ignoring unknown command " ++ cmd ++ lit ".")%list;
       BSend (channel_id message)
             (lit ":warning: Unknown command " ++ [34%N] ++ cmd ++ [34%N])%list].
Proof.
  intros bot message cmd [Hc Hm] Hcmd Hping Hhelp. unfold messageHandler, other_channel.
  rewrite Hc, Hm, String.eqb_refl. cbn [negb]. cbv zeta. rewrite Hcmd.
  rewrite (js_eqb_neq _ _ Hping), (js_eqb_neq _ _ Hhelp). reflexivity.
Qed.

Lemma trim_word :
  forall (first last : N) (middle : js_string),
    is_white first = false -> is_white last = false ->
    trim (first :: middle ++ [last])%list = (first :: middle ++ [last])%list.
Proof.
  intros first last middle Hf Hl.
  pose proof (trim_padded [] [] (first :: middle ++ [last])%list first last middle
                eq_refl eq_refl eq_refl Hf Hl) as H.
  cbn [app] in H. rewrite app_nil_r in H. exact H.
Qed.

Lemma mention_needs_bang :
  forall (c1 c2 c3 : N) (t : js_string),
    N.eqb c3 33 = false -> mention_length (c1 :: c2 :: c3 :: t) = None.
Proof.
  intros c1 c2 c3 t H. unfold mention_length. destruct t as [|d t]; [reflexivity|].
  rewrite H, andb_false_r. reflexivity.
Qed.

Lemma strip_from_no_mention :
  forall (c : N) (t : js_string),
    mention_length (c :: t) = None -> strip_from 0 (c :: t) = c :: strip_from 0 t.
Proof.
  intros c t H. cbn [strip_from]. rewrite H. reflexivity.
Qed.

Lemma digit_is_no_lt : forall c : N, is_digit c = true -> N.eqb c 60 = false.
Proof.
  intros c H. destruct (N.eqb_spec c 60) as [E|E]; [|reflexivity].
  subst c. discriminate H.
Qed.

Lemma digit_is_no_bang : forall c : N, is_digit c = true -> N.eqb c 33 = false.
Proof.
  intros c H. destruct (N.eqb_spec c 33) as [E|E]; [|reflexivity].
  subst c. discriminate H.
Qed.

Lemma digits_no_lt :
  forall ds : js_string, forallb is_digit ds = true -> no_lt ds = true.
Proof.
  induction ds as [|c ds IH]; intros H; [reflexivity|].
  cbn [forallb] in H. apply andb_prop in H. destruct H as [Hc Hds].
  cbn [no_lt forallb]. rewrite (digit_is_no_lt c Hc). exact (IH Hds).
Qed.

(** X18.  The plain mention [<@digits>] is not what the regular expression
    removes.  A message that mentions the bot that way and then names a
    command is not understood: the reply is the warning, and it repeats the
    whole text, mention included. *)
Theorem plain_mention_is_not_stripped :
  forall (bot : DiscordBotService) (message : Message) (c : BotCommand)
         (digits w1 : js_string),
    addressed bot message ->
    forallb is_digit digits = true ->
    forallb is_white w1 = true ->
    content message = (plain_mention digits ++ w1 ++ lit (BotCommand_value c))%list ->
    messageHandler bot message
    = [BLog (lit "Ignoring unknown command " ++ content message ++ lit ".")%list;
       BSend (channel_id message)
             (lit ":warning: Unknown command " ++ [34%N] ++ content message ++ [34%N])%list].
Proof.
  intros bot message c digits w1 Haddr Hds Hw Hcontent.
  assert (Htail : no_lt (digits ++ 62%N :: w1 ++ lit (BotCommand_value c))%list = true).
  { apply no_lt_app; [exact (digits_no_lt digits Hds)|].
    change (62%N :: w1 ++ lit (BotCommand_value c))%list
      with ([62%N] ++ w1 ++ lit (BotCommand_value c))%list.
    apply no_lt_app; [reflexivity|].
    apply no_lt_app; [exact (whites_no_lt w1 Hw) | destruct c; reflexivity]. }
  assert (Hshape : content message
                   = (60%N :: 64%N :: digits ++ 62%N :: w1 ++ lit (BotCommand_value c))%list).
  { rewrite Hcontent. unfold plain_mention.
    change (lit "<@") with [60%N; 64%N]. change (lit ">") with [62%N].
    cbn [app]. rewrite <- app_assoc. reflexivity. }
  assert (Hstrip : strip_mentions (content message) = content message).
  { rewrite Hshape. unfold strip_mentions.
    assert (Hno : mention_length
                    (60%N :: 64%N :: digits ++ 62%N :: w1 ++ lit (BotCommand_value c))%list
                  = None).
    { destruct digits as [|d ds].
      - cbn [app]. apply mention_needs_bang. reflexivity.
      - cbn [app]. apply mention_needs_bang. cbn [forallb] in Hds.
        apply andb_prop in Hds. exact (digit_is_no_bang d (proj1 Hds)). }
    rewrite (strip_from_no_mention _ _ Hno).
    change (64%N :: digits ++ 62%N :: w1 ++ lit (BotCommand_value c))%list
      with ([64%N] ++ (digits ++ 62%N :: w1 ++ lit (BotCommand_value c)))%list.
    rewrite (strip_from_app_no_lt [64%N] _ eq_refl).
    fold (strip_mentions (digits ++ 62%N :: w1 ++ lit (BotCommand_value c))%list).
    rewrite (strip_no_lt _ Htail). reflexivity. }
  assert (Htrim : trim (content message) = content message).
  { rewrite Hshape. destruct c.
    - change (lit (BotCommand_value PING)) with (lit "pin" ++ [103%N])%list.
      replace (60%N :: 64%N :: digits ++ 62%N :: w1 ++ lit "pin" ++ [103%N])%list
        with (60%N :: (64%N :: digits ++ 62%N :: w1 ++ lit "pin") ++ [103%N])%list
        by (cbn [app]; rewrite <- !app_assoc; cbn [app]; rewrite <- !app_assoc; reflexivity).
      apply trim_word; reflexivity.
    - change (lit (BotCommand_value HELP)) with (lit "hel" ++ [112%N])%list.
      replace (60%N :: 64%N :: digits ++ 62%N :: w1 ++ lit "hel" ++ [112%N])%list
        with (60%N :: (64%N :: digits ++ 62%N :: w1 ++ lit "hel") ++ [112%N])%list
        by (cbn [app]; rewrite <- !app_assoc; cbn [app]; rewrite <- !app_assoc; reflexivity).
      apply trim_word; reflexivity. }
  apply unknown_command; [exact Haddr | rewrite Hstrip; exact Htrim | |];
    rewrite Hshape; discriminate.
Qed.

Lemma plain_mention_is_not_stripped_witness :
  replies (messageHandler (mkBot (Some "minecraft") "1001")
             (mkMessage "minecraft" (fun _ => true)
                (plain_mention (lit "1001") ++ lit " " ++ lit (BotCommand_value PING))%list))
  = [("minecraft",
      (lit ":warning: Unknown command " ++ [34%N]
         ++ (plain_mention (lit "1001") ++ lit " " ++ lit (BotCommand_value PING))
         ++ [34%N])%list)].
Proof.
  rewrite (plain_mention_is_not_stripped (mkBot (Some "minecraft") "1001")
             (mkMessage "minecraft" (fun _ => true)
                (plain_mention (lit "1001") ++ lit " " ++ lit (BotCommand_value PING))%list)
             PING (lit "1001") (lit " ")).
  - reflexivity.
  - split; reflexivity.
  - reflexivity.
  - reflexivity.
  - reflexivity.
Defined.

(** X19.  The mentions are removed in one pass.  When a nickname mention stands
    between [<@!] and [outer>], removing it leaves [<@!outer>] behind, which
    is a nickname mention again, and the bot repeats it in its warning. *)
Theorem nested_mention_survives :
  forall (bot : DiscordBotService) (message : Message) (inner outer : js_string),
    addressed bot message ->
    inner <> [] -> forallb is_digit inner = true ->
    forallb is_digit outer = true ->
    content message = (lit "<@!" ++ nickname_mention inner ++ outer ++ lit ">")%list ->
    replies (messageHandler bot message)
    = [(channel_id message,
        (lit ":warning: Unknown command " ++ [34%N] ++ nickname_mention outer ++ [34%N])%list)].
Proof.
  intros bot message inner outer Haddr Hi Hid Hod Hcontent.
  assert (Hstrip : strip_mentions (content message) = nickname_mention outer).
  { rewrite Hcontent. unfold strip_mentions.
    change (lit "<@!") with [60%N; 64%N; 33%N] at 1.
    assert (Hno : mention_length
                    ([60%N; 64%N; 33%N] ++ nickname_mention inner ++ outer ++ lit ">")%list
                  = None) by reflexivity.
    cbn [app] in Hno |- *. rewrite (strip_from_no_mention _ _ Hno).
    change (64%N :: 33%N :: nickname_mention inner ++ outer ++ lit ">")%list
      with ([64%N; 33%N] ++ (nickname_mention inner ++ outer ++ lit ">"))%list.
    rewrite (strip_from_app_no_lt [64%N; 33%N] _ eq_refl).
    rewrite (strip_nickname_mention inner _ Hi Hid).
    fold (strip_mentions (outer ++ lit ">")%list).
    rewrite strip_no_lt
      by (apply no_lt_app; [exact (digits_no_lt outer Hod) | reflexivity]).
    reflexivity. }
  assert (Htrim : trim (nickname_mention outer) = nickname_mention outer).
  { unfold nickname_mention.
    change (lit "<@!") with [60%N; 64%N; 33%N]. change (lit ">") with [62%N].
    change ([60%N; 64%N; 33%N] ++ outer ++ [62%N])%list
      with (60%N :: ([64%N; 33%N] ++ outer ++ [62%N]))%list.
    rewrite app_assoc. apply trim_word; reflexivity. }
  rewrite (unknown_command bot message (nickname_mention outer) Haddr).
  - reflexivity.
  - rewrite Hstrip. exact Htrim.
  - unfold nickname_mention. cbn. discriminate.
  - unfold nickname_mention. cbn. discriminate.
Qed.

Lemma nested_mention_survives_witness :
  replies (messageHandler (mkBot (Some "minecraft") "1001")
             (mkMessage "minecraft" (fun _ => true)
                (lit "<@!" ++ nickname_mention (lit "1001") ++ lit "2002" ++ lit ">")%list))
  = [("minecraft",
      (lit ":warning: Unknown command " ++ [34%N] ++ nickname_mention (lit "2002") ++ [34%N])%list)].
Proof.
  apply (nested_mention_survives (mkBot (Some "minecraft") "1001")
           (mkMessage "minecraft" (fun _ => true)
              (lit "<@!" ++ nickname_mention (lit "1001") ++ lit "2002" ++ lit ">")%list)
           (lit "1001") (lit "2002")).
  - split; reflexivity.
  - discriminate.
  - reflexivity.
  - reflexivity.
  - reflexivity.
Defined.
